(** * LAMMPS accelerator library: neighbor-list manager and shared kernel registry

    A shallow embedding of [lib/gpu/neighbor.h] (class [Neighbor]) and
    [lib/gpu/neighbor_shared.cpp] (class [NeighborShared]), with the
    properties of the design document stated and settled against it.

    Conventions.
    - A C++ [int] is a [Z] in the 32-bit signed range; an operation whose
      result is undefined in C++ (out-of-range conversion, out-of-bounds
      read, deleting a pointer that is not live) yields [None].
    - A C++ [double] is a [spec_float] of the Standard Library, operated
      on with [SFmul]/[SFadd] at precision 53 and [emax] 1024 (binary64,
      round to nearest even).
    - Code of the library that is not in the two files (the body of
      [Neighbor::alloc], the geryon containers) is taken as a parameter or
      modelled where a statement needs it; each such place says so. *)

From Stdlib Require Import ZArith List Bool String Lia Permutation.
From Stdlib Require Import Floats.SpecFloat.
Import ListNotations.

Local Open Scope Z_scope.

(** ** The option monad, for operations with undefined behaviour *)

Definition obind {A B : Type} (x : option A) (f : A -> option B) : option B :=
  match x with
  | Some a => f a
  | None => None
  end.

Notation "x <- e ;; k" := (obind e (fun x => k))
  (at level 61, e at next level, right associativity).

(** ** Machine integers *)

Module Int.

Definition min_int : Z := - 2 ^ 31.
Definition max_int : Z := 2 ^ 31 - 1.

Definition in_range (z : Z) : bool := (min_int <=? z) && (z <=? max_int).

(** Signed arithmetic overflows are undefined. *)
Definition checked (z : Z) : option Z := if in_range z then Some z else None.

Definition add (a b : Z) : option Z := checked (a + b).
Definition mul (a b : Z) : option Z := checked (a * b).

End Int.

(** ** Double precision *)

Module Double.

Definition prec : Z := 53.
Definition emax : Z := 1024.

Definition double : Type := spec_float.

(** [static_cast<double>(z)] for an integral [z]: exact below [2^53]. *)
Definition of_Z (z : Z) : double := binary_normalize prec emax z 0 false.

Definition mul : double -> double -> double := SFmul prec emax.
Definition add : double -> double -> double := SFadd prec emax.

(** The literal [1.10]: the double nearest to 11/10, mantissa
    [0x1199999999999A] at exponent [-52]. *)
Definition c1_10 : double := S754_finite false 4953959590107546 (-52).

Definition signed (sx : bool) (z : Z) : Z := if sx then - z else z.

(** Integral part of a finite double, rounding toward zero. *)
Definition trunc (x : double) : option Z :=
  match x with
  | S754_zero _ => Some 0
  | S754_finite s m e =>
      Some (signed s (Z.shiftl (Zpos m) e))
  | S754_infinity _ | S754_nan => None
  end.

(** [static_cast<int>(x)]: truncation; undefined when the truncated
    value is not representable in [int]. *)
Definition to_int (x : double) : option Z :=
  z <- trunc x ;; Int.checked z.

End Double.

(** [static_cast<int>(static_cast<double>(n)*1.10)], the growth rule of
    [Neighbor::resize]. *)
Definition grow (n : Z) : option Z :=
  Double.to_int (Double.mul (Double.of_Z n) Double.c1_10).

(** The largest request whose growth still fits an [int]. *)
Definition max_request : Z := 1952257861.

(** ** The neighbor-list manager, [class Neighbor] of [neighbor.h] *)

Module Neighbor.

Definition IJ_SIZE : Z := 131072.

(** [sizeof(int)] on the platforms the library is built for. *)
Definition sizeof_int : Z := 4.

(** The data members of the class.  A geryon vector ([UCL_D_Vec<int>],
    [UCL_H_Vec<int>]) is the list of its elements; the two timers and the
    pointers to the registry and to the device carry no data of the
    manager and are left out. *)
Record t : Type := mk {
  _allocated : bool;
  _use_packing : bool;
  _gpu_nbor : Z;
  _max_atoms : Z;
  _max_nbors : Z;
  _max_host : Z;
  _nbor_pitch : Z;
  _maxspecial : Z;
  _gpu_host : bool;
  _alloc_packed : bool;
  _cell_size : Double.double;
  _gpu_bytes : Double.double;
  _c_bytes : Double.double;
  _cell_bytes : Double.double;
  _block_cell_2d : Z;
  _block_cell_id : Z;
  _block_nbor_build : Z;
  dev_nbor : list Z;
  dev_packed : list Z;
  host_packed : list Z;
  host_acc : list Z;
  host_nbor : list Z;
  dev_host_nbor : list Z;
  dev_host_numj : list Z;
  host_ilist : list Z;
  dev_nspecial : list Z;
  dev_special : list Z;
  dev_special_t : list Z
}.

(** Assignments to single members. *)

Definition set_use_packing (v : bool) (s : t) : t :=
  mk (_allocated s) v (_gpu_nbor s) (_max_atoms s) (_max_nbors s)
    (_max_host s) (_nbor_pitch s) (_maxspecial s) (_gpu_host s)
    (_alloc_packed s) (_cell_size s) (_gpu_bytes s) (_c_bytes s)
    (_cell_bytes s) (_block_cell_2d s) (_block_cell_id s)
    (_block_nbor_build s) (dev_nbor s) (dev_packed s) (host_packed s)
    (host_acc s) (host_nbor s) (dev_host_nbor s) (dev_host_numj s)
    (host_ilist s) (dev_nspecial s) (dev_special s) (dev_special_t s).

Definition set_cell_size (v : Double.double) (s : t) : t :=
  mk (_allocated s) (_use_packing s) (_gpu_nbor s) (_max_atoms s)
    (_max_nbors s) (_max_host s) (_nbor_pitch s) (_maxspecial s)
    (_gpu_host s) (_alloc_packed s) v (_gpu_bytes s) (_c_bytes s)
    (_cell_bytes s) (_block_cell_2d s) (_block_cell_id s)
    (_block_nbor_build s) (dev_nbor s) (dev_packed s) (host_packed s)
    (host_acc s) (host_nbor s) (dev_host_nbor s) (dev_host_numj s)
    (host_ilist s) (dev_nspecial s) (dev_special s) (dev_special_t s).

Definition set_max_atoms (v : Z) (s : t) : t :=
  mk (_allocated s) (_use_packing s) (_gpu_nbor s) v (_max_nbors s)
    (_max_host s) (_nbor_pitch s) (_maxspecial s) (_gpu_host s)
    (_alloc_packed s) (_cell_size s) (_gpu_bytes s) (_c_bytes s)
    (_cell_bytes s) (_block_cell_2d s) (_block_cell_id s)
    (_block_nbor_build s) (dev_nbor s) (dev_packed s) (host_packed s)
    (host_acc s) (host_nbor s) (dev_host_nbor s) (dev_host_numj s)
    (host_ilist s) (dev_nspecial s) (dev_special s) (dev_special_t s).

Definition set_max_host (v : Z) (s : t) : t :=
  mk (_allocated s) (_use_packing s) (_gpu_nbor s) (_max_atoms s)
    (_max_nbors s) v (_nbor_pitch s) (_maxspecial s) (_gpu_host s)
    (_alloc_packed s) (_cell_size s) (_gpu_bytes s) (_c_bytes s)
    (_cell_bytes s) (_block_cell_2d s) (_block_cell_id s)
    (_block_nbor_build s) (dev_nbor s) (dev_packed s) (host_packed s)
    (host_acc s) (host_nbor s) (dev_host_nbor s) (dev_host_numj s)
    (host_ilist s) (dev_nspecial s) (dev_special s) (dev_special_t s).

Definition set_max_nbors (v : Z) (s : t) : t :=
  mk (_allocated s) (_use_packing s) (_gpu_nbor s) (_max_atoms s) v
    (_max_host s) (_nbor_pitch s) (_maxspecial s) (_gpu_host s)
    (_alloc_packed s) (_cell_size s) (_gpu_bytes s) (_c_bytes s)
    (_cell_bytes s) (_block_cell_2d s) (_block_cell_id s)
    (_block_nbor_build s) (dev_nbor s) (dev_packed s) (host_packed s)
    (host_acc s) (host_nbor s) (dev_host_nbor s) (dev_host_numj s)
    (host_ilist s) (dev_nspecial s) (dev_special s) (dev_special_t s).

Definition set_dev_packed (v : list Z) (s : t) : t :=
  mk (_allocated s) (_use_packing s) (_gpu_nbor s) (_max_atoms s)
    (_max_nbors s) (_max_host s) (_nbor_pitch s) (_maxspecial s)
    (_gpu_host s) (_alloc_packed s) (_cell_size s) (_gpu_bytes s)
    (_c_bytes s) (_cell_bytes s) (_block_cell_2d s) (_block_cell_id s)
    (_block_nbor_build s) (dev_nbor s) v (host_packed s) (host_acc s)
    (host_nbor s) (dev_host_nbor s) (dev_host_numj s) (host_ilist s)
    (dev_nspecial s) (dev_special s) (dev_special_t s).

(** [void packing(const bool use_packing)] *)
Definition packing (s : t) (use_packing : bool) : t :=
  set_use_packing use_packing s.

(** [void cell_size(const double size)] and [double cell_size() const] *)
Definition set_cell (s : t) (size : Double.double) : t := set_cell_size size s.
Definition cell_size (s : t) : Double.double := _cell_size s.

(** The accessors [gpu_nbor()], [nbor_pitch()], [max_atoms()], [max_nbors()]. *)
Definition gpu_nbor (s : t) : Z := _gpu_nbor s.
Definition nbor_pitch (s : t) : Z := _nbor_pitch s.
Definition max_atoms (s : t) : Z := _max_atoms s.
Definition max_nbors (s : t) : Z := _max_nbors s.

Section Resize.

(** [void alloc(bool &success)] is declared in the class and defined in
    [neighbor.cpp]; it is a parameter here: from the manager and the flag
    on entry it gives the manager and the flag on return. *)
Variable alloc : t -> bool -> t * bool.

(** [resize(inum, max_nbor, success)] *)
Definition resize (s : t) (inum max_nbor : Z) (success : bool)
  : option (t * bool) :=
  if (inum >? _max_atoms s) || (max_nbor >? _max_nbors s) then
    a <- grow inum ;;
  let s1 := set_max_atoms a s in
    s2 <- (if max_nbor >? _max_nbors s1
           then n <- grow max_nbor ;; Some (set_max_nbors n s1)
           else Some s1) ;;
  Some (alloc s2 success)
  else Some (s, success).

(** [resize(inum, host_inum, max_nbor, success)] *)
Definition resize_host (s : t) (inum host_inum max_nbor : Z) (success : bool)
  : option (t * bool) :=
  if (inum >? _max_atoms s) || (max_nbor >? _max_nbors s)
     || (host_inum >? _max_host s) then
    a <- grow inum ;;
  let s1 := set_max_atoms a s in
    h <- grow host_inum ;;
  let s2 := set_max_host h s1 in
    s3 <- (if max_nbor >? _max_nbors s2
           then n <- grow max_nbor ;; Some (set_max_nbors n s2)
           else Some s2) ;;
  Some (alloc s3 success)
  else Some (s, success).

(** A call of either overload, and a sequence of calls threaded through
    the manager and the success flag. *)
Inductive call : Type :=
| Resize (inum max_nbor : Z)
| ResizeHost (inum host_inum max_nbor : Z).

Definition do_call (c : call) (st : t * bool) : option (t * bool) :=
  match c with
  | Resize inum max_nbor => resize (fst st) inum max_nbor (snd st)
  | ResizeHost inum host_inum max_nbor =>
      resize_host (fst st) inum host_inum max_nbor (snd st)
  end.

Fixpoint run (cs : list call) (st : t * bool) : option (t * bool) :=
  match cs with
  | [] => Some st
  | c :: cs' => st' <- do_call c st ;; run cs' st'
  end.

End Resize.

(** What the statements about [resize] ask of the parameter [alloc]: it
    does not write the three capacity members. *)
Definition keeps_capacity (alloc : t -> bool -> t * bool) : Prop :=
  forall s b,
    _max_atoms (fst (alloc s b)) = _max_atoms s /\
    _max_host (fst (alloc s b)) = _max_host s /\
    _max_nbors (fst (alloc s b)) = _max_nbors s.

(** The arguments of a call are [int]s; a request is a count that [grow]
    is defined on. *)
Definition is_int (n : Z) : Prop := Int.min_int <= n <= Int.max_int.
Definition request (n : Z) : Prop := 0 <= n <= max_request.

Definition call_int (c : call) : Prop :=
  match c with
  | Resize inum max_nbor => is_int inum /\ is_int max_nbor
  | ResizeHost inum host_inum max_nbor =>
      is_int inum /\ is_int host_inum /\ is_int max_nbor
  end.

Definition call_request (c : call) : Prop :=
  match c with
  | Resize inum max_nbor => request inum /\ request max_nbor
  | ResizeHost inum host_inum max_nbor =>
      request inum /\ request host_inum /\ request max_nbor
  end.

(** Element [i] of an array; reading outside the array is undefined. *)
Definition read (a : list Z) (i : Z) : option Z :=
  if 0 <=? i then nth_error a (Z.to_nat i) else None.

(** The body of the loop of [max_nbor_loop], from index [i] with running
    maximum [mn], for [todo] more iterations. *)
Fixpoint max_nbor_from (todo : nat) (i mn : Z) (numj ilist : list Z)
  : option Z :=
  match todo with
  | O => Some mn
  | S todo' =>
      j <- read ilist i ;;
      c <- read numj j ;;
      max_nbor_from todo' (i + 1) (Z.max mn c) numj ilist
  end.

(** [int max_nbor_loop(const int inum, int *numj, int *ilist) const] *)
Definition max_nbor_loop (inum : Z) (numj ilist : list Z) : option Z :=
  max_nbor_from (Z.to_nat inum) 0 0 numj ilist.

(** Entry [i] of the scan has the count [c]: [numj[ilist[i]]] is [c]. *)
Definition entry (numj ilist : list Z) (i c : Z) : Prop :=
  exists j, read ilist i = Some j /\ read numj j = Some c.

(** Modelled from the spec: [ucl_copy(dst, src, numel, async)] of geryon,
    which is not among the sources.  "Duplicates": the first [numel]
    elements of [src] replace the first [numel] elements of [dst]; a count
    beyond either vector is undefined. *)
Definition ucl_copy (dst src : list Z) (numel : Z) : option (list Z) :=
  if (0 <=? numel) && (numel <=? Z.of_nat (List.length src))
     && (numel <=? Z.of_nat (List.length dst))
  then Some (firstn (Z.to_nat numel) src ++ skipn (Z.to_nat numel) dst)
  else None.

(** [void copy_unpacked(const int inum, const int maxj)] *)
Definition copy_unpacked (s : t) (inum maxj : Z) : option t :=
  rows <- Int.add maxj 2 ;;
  numel <- Int.mul inum rows ;;
  packed <- ucl_copy (dev_packed s) (dev_nbor s) numel ;;
  Some (set_dev_packed packed s).

(** [2*IJ_SIZE*sizeof(int)], an unsigned integral value, as a double. *)
Definition staging_bytes : Double.double :=
  Double.of_Z (2 * IJ_SIZE * sizeof_int).

(** [double gpu_bytes()] *)
Definition gpu_bytes (s : t) : Double.double :=
  let res := Double.add (Double.add (_gpu_bytes s) (_c_bytes s)) (_cell_bytes s) in
  if _gpu_nbor s =? 0 then Double.add res staging_bytes else res.

(** Modelled from the spec: the body of [build_nbor_list] is in
    [neighbor.cpp], which is not among the sources; only its declaration
    is.  What is modelled is its outcome for the caller, step 6 of the
    build as the design document words it: "Re-scan actual per-particle
    neighbor counts; if any exceeds the current max_nbors allocation,
    signal failure via success=false and report the observed maximum
    through max_nbors_out".  Steps 1 to 5 are taken as done: [numj] holds
    the counts the device found, scanned in the order of [ilist] with
    [max_nbor_loop]; the result is the pair of the two output parameters
    [success] and [max_nbors]. *)
Definition build_nbor_list (s : t) (inum : Z) (numj ilist : list Z)
  (success : bool) : option (bool * Z) :=
  mn <- max_nbor_loop inum numj ilist ;;
  Some (if mn >? _max_nbors s then false else success, mn).

End Neighbor.

(** ** The shared kernel registry, [class NeighborShared] of
       [neighbor_shared.cpp] *)

Module NeighborShared.

(** The kernel sources, string constants of the generated headers
    [neighbor_cpu_cl.h] / [neighbor_cpu_ptx.h] and [neighbor_gpu_ptx.h]. *)
Inductive source : Type := neighbor_cpu | neighbor_gpu.

(** A [UCL_Program]: what [load_string] compiled into it, with the flags. *)
Record UCL_Program : Type := { loaded : option (source * string) }.

(** Programs live on the free store; [new] gives an address no live
    program has, [delete] needs the address of a live program. *)
Definition ptr : Type := nat.
Definition store : Type := list (ptr * UCL_Program).

Definition live (h : store) (p : ptr) : bool :=
  existsb (fun e => Nat.eqb (fst e) p) h.

Definition new_program (h : store) : ptr * store :=
  let p := S (list_max (map fst h)) in
  (p, (p, {| loaded := None |}) :: h).

Definition load_string (h : store) (p : ptr) (src : source) (flags : string)
  : store :=
  map (fun e => if Nat.eqb (fst e) p
                then (p, {| loaded := Some (src, flags) |}) else e) h.

(** [delete p]: a member pointer that was never assigned ([None]) or that
    points to no live program makes it undefined. *)
Definition delete (h : store) (p : option ptr) : option store :=
  match p with
  | Some q =>
      if live h q then Some (filter (fun e => negb (Nat.eqb (fst e) q)) h)
      else None
  | None => None
  end.

(** A [UCL_Kernel] (and the [UCL_Texture]): the program and the name of
    the function [set_function] (or [get_texture]) bound it to; [clear()]
    unbinds it. *)
Definition UCL_Kernel : Type := option (ptr * string).
Definition UCL_Texture : Type := option (ptr * string).

Record t : Type := mk {
  _compiled : bool;
  _gpu_nbor : Z;
  nbor_program : option ptr;
  build_program : option ptr;
  k_nbor : UCL_Kernel;
  k_cell_id : UCL_Kernel;
  k_cell_counts : UCL_Kernel;
  k_build_nbor : UCL_Kernel;
  k_transpose : UCL_Kernel;
  k_special : UCL_Kernel;
  neigh_tex : UCL_Texture;
  programs : store
}.

(** [void NeighborShared::clear()] *)
Definition clear (s : t) : option t :=
  if _compiled s then
    if _gpu_nbor s >? 0 then
      let one := _gpu_nbor s =? 1 in
      h <- delete (programs s) (build_program s) ;;
      Some {| _compiled := false;
              _gpu_nbor := _gpu_nbor s;
              nbor_program := nbor_program s;
              build_program := build_program s;
              k_nbor := k_nbor s;
              k_cell_id := if one then None else k_cell_id s;
              k_cell_counts := if one then None else k_cell_counts s;
              k_build_nbor := None;
              k_transpose := None;
              k_special := None;
              neigh_tex := neigh_tex s;
              programs := h |}
    else
      h <- delete (programs s) (nbor_program s) ;;
      Some {| _compiled := false;
              _gpu_nbor := _gpu_nbor s;
              nbor_program := nbor_program s;
              build_program := build_program s;
              k_nbor := None;
              k_cell_id := k_cell_id s;
              k_cell_counts := k_cell_counts s;
              k_build_nbor := k_build_nbor s;
              k_transpose := k_transpose s;
              k_special := k_special s;
              neigh_tex := neigh_tex s;
              programs := h |}
  else Some s.

(** How a call of [compile_kernels] ends: it returns, or the process
    exits with a status after writing to [std::cerr]. *)
Inductive outcome : Type :=
| Returned (s : t)
| Exited (status : Z) (cerr : string).

Definition newline : string := String (Ascii.ascii_of_nat 10) EmptyString.

Section Build.

(** The build-time configuration: whether [USE_OPENCL] is defined, and
    the macro [OCL_VENDOR] (defined in a header that is not among the
    sources). *)
Variable USE_OPENCL : bool.
Variable OCL_VENDOR : string.

(** [void NeighborShared::compile_kernels(UCL_Device &dev, const int gpu_nbor)] *)
Definition compile_kernels (s : t) (gpu_nbor : Z) : outcome :=
  if _compiled s then Returned s
  else
    let flags := ("-cl-fast-relaxed-math -cl-mad-enable -D" ++ OCL_VENDOR)%string in
    if gpu_nbor =? 0 then
      let (p, h) := new_program (programs s) in
      let h := load_string h p neighbor_cpu flags in
      Returned {| _compiled := true;
                  _gpu_nbor := gpu_nbor;
                  nbor_program := Some p;
                  build_program := build_program s;
                  k_nbor := Some (p, "kernel_unpack"%string);
                  k_cell_id := k_cell_id s;
                  k_cell_counts := k_cell_counts s;
                  k_build_nbor := k_build_nbor s;
                  k_transpose := k_transpose s;
                  k_special := k_special s;
                  neigh_tex := neigh_tex s;
                  programs := h |}
    else
      let (p, h) := new_program (programs s) in
      if USE_OPENCL && (gpu_nbor =? 1) then
        Exited 1 ("CANNOT CURRENTLY USE GPU NEIGHBORING WITH OPENCL" ++ newline)%string
      else
        let h := if USE_OPENCL then h
                 else load_string h p neighbor_gpu flags in
        let one := gpu_nbor =? 1 in
        Returned {| _compiled := true;
                    _gpu_nbor := gpu_nbor;
                    nbor_program := nbor_program s;
                    build_program := Some p;
                    k_nbor := k_nbor s;
                    k_cell_id :=
                      if one then Some (p, "calc_cell_id"%string) else k_cell_id s;
                    k_cell_counts :=
                      if one then Some (p, "kernel_calc_cell_counts"%string)
                      else k_cell_counts s;
                    k_build_nbor := Some (p, "calc_neigh_list_cell"%string);
                    k_transpose := Some (p, "transpose"%string);
                    k_special := Some (p, "kernel_special"%string);
                    neigh_tex := Some (p, "neigh_tex"%string);
                    programs := h |}.

End Build.

(** The kernel functions the registry holds a handle to, in the order of
    the members. *)
Definition bound (k : UCL_Kernel) : list string :=
  match k with
  | Some (_, f) => [f]
  | None => []
  end.

Definition kernels (s : t) : list string :=
  bound (k_nbor s) ++ bound (k_cell_id s) ++ bound (k_cell_counts s)
  ++ bound (k_build_nbor s) ++ bound (k_transpose s) ++ bound (k_special s).

(** The function names of the sources, as [compile_kernels] binds them:
    the unpack kernel; the two binning kernels (cell ids, cell counts);
    the three build kernels (list build, transpose, specials). *)
Definition unpack_kernels : list string := ["kernel_unpack"%string].
Definition binning_kernels : list string :=
  ["calc_cell_id"%string; "kernel_calc_cell_counts"%string].
Definition build_kernels : list string :=
  ["calc_neigh_list_cell"%string; "transpose"%string;
   "kernel_special"%string].


(** The released state: marked uncompiled, no kernel handle bound, no
    program alive.  The two member pointers may hold anything. *)
Definition released (s : t) : Prop :=
  _compiled s = false /\ kernels s = [] /\ programs s = [].

(** A registry on which nothing was ever compiled. *)
Definition fresh : t :=
  {| _compiled := false; _gpu_nbor := 0;
     nbor_program := None; build_program := None;
     k_nbor := None; k_cell_id := None; k_cell_counts := None;
     k_build_nbor := None; k_transpose := None; k_special := None;
     neigh_tex := None; programs := [] |}.

End NeighborShared.

(** ** Sample instances, for evaluating the operations *)

Module Sample.

Import Neighbor.

(** An instance of the parameter [alloc]: every allocation succeeds and
    the members are left as [resize] set them. *)
Definition alloc_keep (s : t) (success : bool) : t * bool := (s, success).

(** An instance of the parameter [alloc] that records the allocation in
    [_allocated] and fails: the flag comes back false. *)
Definition alloc_fail (s : t) (success : bool) : t * bool :=
  (mk true (_use_packing s) (_gpu_nbor s) (_max_atoms s) (_max_nbors s)
     (_max_host s) (_nbor_pitch s) (_maxspecial s) (_gpu_host s)
     (_alloc_packed s) (_cell_size s) (_gpu_bytes s) (_c_bytes s)
     (_cell_bytes s) (_block_cell_2d s) (_block_cell_id s)
     (_block_nbor_build s) [] [] [] [] [] [] [] [] [] [] [],
   false).

(** A manager with the given mode, capacities, packing flag, byte totals
    and device buffers; everything else zero or empty. *)
Definition manager (gpu_nbor max_atoms max_host max_nbors : Z)
  (use_packing : bool) (bytes : Z * Z * Z) (nbor packed : list Z) : t :=
  let '(gb, cb, lb) := bytes in
  mk true use_packing gpu_nbor max_atoms max_nbors max_host max_atoms 0
    false use_packing (S754_zero false)
    (Double.of_Z gb) (Double.of_Z cb) (Double.of_Z lb)
    0 0 0 nbor packed [] [] [] [] [] [] [] [] [].

(** A value of the macro [OCL_VENDOR]. *)
Definition vendor : string := "NVIDIA_GPU".

End Sample.

(** ** Requests that cannot be grown *)

(** The [int]s whose eleven tenths, rounded toward zero, is no [int]. *)
Definition grow_overflows (n : Z) : Prop :=
  n < -1952257862 \/ 1952257861 < n.

(** ** Sequences of registry calls *)

Module Lifecycle.

Import NeighborShared.

(** A call on the registry, and how a sequence of calls ends: with the
    registry it leaves, with the process gone, or in undefined behaviour
    (a [delete] of a pointer that is not live). *)
Inductive op : Type :=
| Compile (gpu_nbor : Z)
| Clear.

Inductive result : Type :=
| Running (s : t)
| Stopped (status : Z) (cerr : string)
| Undefined.

Section Build.

Variable USE_OPENCL : bool.
Variable OCL_VENDOR : string.

Definition step (o : op) (s : t) : result :=
  match o with
  | Compile gpu_nbor =>
      match compile_kernels USE_OPENCL OCL_VENDOR s gpu_nbor with
      | Returned s' => Running s'
      | Exited status cerr => Stopped status cerr
      end
  | Clear =>
      match clear s with
      | Some s' => Running s'
      | None => Undefined
      end
  end.

Fixpoint exec (ops : list op) (s : t) : result :=
  match ops with
  | [] => Running s
  | o :: ops' =>
      match step o s with
      | Running s' => exec ops' s'
      | r => r
      end
  end.

End Build.

(** What a registry looks like between calls: released, or what
    [compile_kernels] returned for a mode that is not negative on a
    released registry. *)
Definition settled (USE_OPENCL : bool) (OCL_VENDOR : string) (s : t) : Prop :=
  released s \/
  exists s0 gpu_nbor,
    released s0 /\ 0 <= gpu_nbor /\
    compile_kernels USE_OPENCL OCL_VENDOR s0 gpu_nbor = Returned s.

(** The modes the header documents are 0, 1 and 2; the statements need
    only that a mode is not negative. *)
Definition mode_ok (o : op) : Prop :=
  match o with
  | Compile gpu_nbor => 0 <= gpu_nbor
  | Clear => True
  end.

End Lifecycle.

(** ** The scan as a fold *)

Module Scan.

(** One iteration of the loop of [max_nbor_loop] on the particle [j],
    and the iterations over a list of particles in order. *)
Definition visit (numj : list Z) (acc : option Z) (j : Z) : option Z :=
  mn <- acc ;; c <- Neighbor.read numj j ;; Some (Z.max mn c).

Definition visits (numj : list Z) (js : list Z) (mn : Z) : option Z :=
  fold_left (visit numj) js (Some mn).

End Scan.

(** ** What the kernel sources hold *)

Module Bundle.

Import NeighborShared.



End Bundle.

(** * Properties *)

(** ** Machine integers *)

Module IntFacts.

Lemma in_range_iff z :
  Int.in_range z = true <-> Int.min_int <= z <= Int.max_int.
Proof. unfold Int.in_range. rewrite andb_true_iff, !Z.leb_le. tauto. Qed.

Lemma checked_Some z r :
  Int.checked z = Some r -> r = z /\ Int.min_int <= z <= Int.max_int.
Proof.
  unfold Int.checked. destruct (Int.in_range z) eqn:E; [|discriminate].
  intros [= <-]. split; [reflexivity | now apply in_range_iff].
Qed.

Lemma checked_in z :
  Int.min_int <= z <= Int.max_int -> Int.checked z = Some z.
Proof.
  intros H. unfold Int.checked. now rewrite (proj2 (in_range_iff z) H).
Qed.

End IntFacts.

(** ** Double precision: what rounding does to the products of [grow] *)

Module DoubleFacts.
Import Double.

Lemma digits2_size p : digits2_pos p = Pos.size p.
Proof. induction p; simpl; congruence. Qed.

Lemma digits_bounds p :
  2 ^ (Zpos (digits2_pos p) - 1) <= Zpos p < 2 ^ Zpos (digits2_pos p).
Proof.
  rewrite digits2_size. split.
  - pose proof (Pos.size_le p) as H.
    apply Pos2Z.pos_le_pos in H. rewrite Pos2Z.inj_pow in H.
    change (Zpos p~0) with (2 * Zpos p) in H.
    replace (Zpos (Pos.size p)) with (Z.succ (Zpos (Pos.size p) - 1)) in H by lia.
    rewrite Z.pow_succ_r in H by lia. lia.
  - pose proof (Pos.size_gt p) as H.
    apply Pos2Z.pos_lt_pos in H. now rewrite Pos2Z.inj_pow in H.
Qed.

Lemma shr_1_m mrs : 0 <= shr_m mrs -> shr_m (shr_1 mrs) = shr_m mrs / 2.
Proof.
  destruct mrs as [m r s]. simpl. intros Hm.
  destruct m as [|p|p]; [reflexivity| |lia].
  destruct p as [p|p|]; simpl.
  - rewrite Pos2Z.inj_xI. apply Z.div_unique with (r := 1); lia.
  - rewrite Pos2Z.inj_xO. apply Z.div_unique with (r := 0); lia.
  - reflexivity.
Qed.

Lemma shr_iter_m p : forall mrs,
  0 <= shr_m mrs -> shr_m (iter_pos shr_1 p mrs) = shr_m mrs / 2 ^ Zpos p.
Proof.
  assert (nonneg : forall a b, 0 <= a -> 0 < b -> 0 <= a / b)
    by (intros; apply Z.div_pos; assumption).
  induction p as [p IH|p IH|]; intros mrs Hm; simpl iter_pos.
  - assert (X : 0 < 2 ^ Zpos p) by (apply Z.pow_pos_nonneg; lia).
    assert (H1 : 0 <= shr_m (shr_1 mrs)) by (rewrite shr_1_m; auto with zarith).
    assert (H2 : 0 <= shr_m (iter_pos shr_1 p (shr_1 mrs))) by (rewrite IH; auto).
    rewrite (IH _ H2), (IH _ H1), shr_1_m by assumption.
    rewrite !Z.div_div by lia. f_equal.
    replace (Zpos p~1) with (1 + Zpos p + Zpos p) by lia.
    rewrite !Z.pow_add_r, Z.pow_1_r by lia. ring.
  - assert (X : 0 < 2 ^ Zpos p) by (apply Z.pow_pos_nonneg; lia).
    assert (H2 : 0 <= shr_m (iter_pos shr_1 p mrs)) by (rewrite IH; auto).
    rewrite (IH _ H2), (IH _ Hm).
    rewrite !Z.div_div by lia. f_equal.
    replace (Zpos p~0) with (Zpos p + Zpos p) by lia.
    rewrite !Z.pow_add_r by lia. ring.
  - rewrite shr_1_m by assumption. reflexivity.
Qed.

(** Shifting a nonnegative mantissa right by [n >= 0] places. *)
Lemma shr_m_div mrs e n :
  0 <= shr_m mrs -> 0 <= n ->
  shr_m (fst (shr mrs e n)) = shr_m mrs / 2 ^ n /\ snd (shr mrs e n) = e + n.
Proof.
  intros Hm Hn. destruct n as [|p|p]; simpl.
  - rewrite Z.div_1_r. split; [reflexivity | lia].
  - split; [now apply shr_iter_m | reflexivity].
  - lia.
Qed.

Lemma round_nearest_even_bounds m l :
  m <= round_nearest_even m l <= m + 1.
Proof.
  destruct l as [|[| |]]; simpl; try lia.
  destruct (Z.even m); lia.
Qed.


Lemma fexp_normal d e :
  3 - emax - prec <= d + e - prec -> fexp prec emax (d + e) - e = d - prec.
Proof. unfold fexp, emin. lia. Qed.

Lemma pow2_lt_mono a b : 0 <= a -> 2 ^ a < 2 ^ b -> a < b.
Proof. intros Ha H. apply (Z.pow_lt_mono_r_iff 2); lia || (destruct (Z.le_gt_cases 0 b); [lia|]; rewrite (Z.pow_neg_r 2 b) in H by lia; pose proof (Z.pow_pos_nonneg 2 a); lia). Qed.

(** A mantissa of exactly [prec] digits with an exponent in range is
    already canonical: rounding it is the identity. *)
Lemma round_aux_exact sx m e :
  Zpos (digits2_pos m) = prec ->
  3 - emax - prec <= e <= emax - prec ->
  binary_round_aux prec emax sx (Zpos m) e loc_Exact = S754_finite sx m e.
Proof.
  intros Hd He. unfold binary_round_aux, shr_fexp.
  cbn [Zdigits2]. rewrite fexp_normal by lia. rewrite Hd, Z.sub_diag.
  cbn [shr shr_record_of_loc loc_of_shr_record shr_m round_nearest_even].
  cbn [Zdigits2]. rewrite fexp_normal by lia. rewrite Hd, Z.sub_diag.
  cbn [shr shr_record_of_loc shr_m].
  destruct He as [_ He]. apply Z.leb_le in He. now rewrite He.
Qed.

Lemma shiftl_half r e :
  0 <= r -> Z.even r = true -> Z.shiftl (r / 2) (e + 1) = Z.shiftl r e.
Proof.
  intros Hr Hev. apply Z.even_spec in Hev. destruct Hev as [h ->].
  rewrite (Z.mul_comm 2 h), Z.div_mul by lia.
  destruct (Z.le_gt_cases 0 e) as [H|H].
  - rewrite !Z.shiftl_mul_pow2 by lia. rewrite Z.pow_add_r, Z.pow_1_r by lia. ring.
  - rewrite !Z.shiftl_div_pow2 by lia.
    replace (- e) with (1 + - (e + 1)) by lia.
    rewrite Z.pow_add_r, Z.pow_1_r by lia.
    rewrite <- Z.div_div by (try apply Z.pow_pos_nonneg; lia).
    now rewrite Z.div_mul by lia.
Qed.

(** Rounding a longer mantissa: the result, truncated to an integer, is
    the truncation of [r * 2^(e+k)] for one of the two neighbours [r] of
    [m / 2^k], where [k] is the number of digits dropped. *)
Lemma round_aux_trunc sx m e :
  let k := Zpos (digits2_pos m) - prec in
  0 <= k ->
  3 - emax - prec <= e + k -> e + k + 1 <= emax - prec ->
  exists r,
    Zpos m / 2 ^ k <= r <= Zpos m / 2 ^ k + 1 /\
    trunc (binary_round_aux prec emax sx (Zpos m) e loc_Exact)
    = Some (Double.signed sx (Z.shiftl r (e + k))).
Proof.
  intros k Hk Hlo Hhi.
  pose proof (digits_bounds m) as Hm.
  set (d := Zpos (digits2_pos m)) in *.
  assert (Hq : 2 ^ (prec - 1) <= Zpos m / 2 ^ k < 2 ^ prec).
  { assert (0 < 2 ^ k) by (apply Z.pow_pos_nonneg; lia).
    replace d with (prec + k) in Hm by (unfold k; lia).
    replace (prec + k - 1) with (prec - 1 + k) in Hm by lia.
    rewrite !Z.pow_add_r in Hm by (unfold prec; lia).
    split.
    - apply Z.div_le_lower_bound; lia.
    - apply Z.div_lt_upper_bound; lia. }
  unfold binary_round_aux, shr_fexp. cbn [Zdigits2]. fold d.
  rewrite fexp_normal by (unfold k in *; lia). fold k.
  destruct (shr_m_div (shr_record_of_loc (Zpos m) loc_Exact) e k) as [E1 E2];
    [simpl; lia | assumption |].
  destruct (shr (shr_record_of_loc (Zpos m) loc_Exact) e k) as [mrs' e'].
  cbn [fst snd] in E1, E2. cbn [shr_record_of_loc shr_m] in E1. subst e'.
  pose proof (round_nearest_even_bounds (shr_m mrs') (loc_of_shr_record mrs')) as Hr.
  set (r := round_nearest_even (shr_m mrs') (loc_of_shr_record mrs')) in *.
  rewrite E1 in Hr. exists r. split; [exact Hr|].
  assert (Hrpos : 0 < r) by (assert (0 < 2 ^ (prec - 1)) by (apply Z.pow_pos_nonneg; unfold prec; lia); lia).
  destruct r as [|rp|rp] eqn:Er; try lia.
  cbn [Zdigits2].
  pose proof (digits_bounds rp) as Hd.
  remember (Zpos (digits2_pos rp)) as dr eqn:Edr.
  assert (Hdr : dr = prec \/ (dr = prec + 1 /\ Zpos rp = 2 ^ prec)).
  { assert (prec - 1 < dr) by (apply pow2_lt_mono; [unfold prec; lia | lia]).
    assert (dr - 1 < prec + 1).
    { apply pow2_lt_mono; [lia|].
      rewrite (Z.pow_add_r 2 prec 1), Z.pow_1_r by (unfold prec; lia). lia. }
    destruct (Z.eq_dec dr prec) as [->|Hne]; [now left|right].
    assert (Hdr : dr = prec + 1) by lia. split; [assumption|].
    rewrite Hdr in Hd.
    replace (prec + 1 - 1) with prec in Hd by lia. lia. }
  destruct Hdr as [Hdr|[Hdr Hr53]].
  - rewrite fexp_normal by lia. rewrite Hdr, Z.sub_diag.
    cbn [shr shr_record_of_loc shr_m].
    assert (He : (e + k <=? emax - prec) = true) by (apply Z.leb_le; lia).
    rewrite He. reflexivity.
  - rewrite fexp_normal by lia. rewrite Hdr.
    replace (prec + 1 - prec) with 1 by lia.
    cbn [shr shr_record_of_loc iter_pos].
    assert (Hs : shr_m (shr_1 {| shr_m := Zpos rp; shr_r := false; shr_s := false |}) = 2 ^ (prec - 1)).
    { rewrite shr_1_m by (simpl; lia). cbn [shr_m]. rewrite Hr53. reflexivity. }
    rewrite Hs. change (2 ^ (prec - 1)) with (Zpos (2 ^ 52)).
    assert (He : (e + k + 1 <=? emax - prec) = true) by (apply Z.leb_le; lia).
    rewrite He. cbn [trunc]. unfold signed.
    rewrite Hr53. change (Zpos (2 ^ 52)) with (2 ^ prec / 2).
    rewrite shiftl_half; [reflexivity | apply Z.pow_nonneg; lia | reflexivity].
Qed.

(** The arithmetic at the heart of [grow]: with [A = n*S*M] the exact
    product mantissa ([M] the mantissa of 1.10, [S] the normalisation
    factor of [n]), dropping [k] digits ([K = 2^k]), rounding to a
    neighbour [r] and then truncating ([J = 2^j], [j+k] the scale of the
    product) gives the floor of [11*n/10]. *)
Lemma grow_arith n S K J r :
  0 < n -> 0 < K -> 0 < J ->
  J * K = 2 ^ 52 * S ->
  n * S < 2 ^ 53 -> K <= 2 ^ 53 -> 2 ^ 21 <= S ->
  (n * S * 4953959590107546) / K <= r <= (n * S * 4953959590107546) / K + 1 ->
  r / J = 11 * n / 10.
Proof.
  intros Hn HK HJ HJK HnS HK53 HS Hr.
  set (A := n * S * 4953959590107546) in *.
  set (t := 11 * n / 10).
  assert (Ht : 10 * t <= 11 * n < 10 * t + 10).
  { unfold t. pose proof (Z.div_mod (11 * n) 10).
    pose proof (Z.mod_pos_bound (11 * n) 10). lia. }
  assert (Hq : K * (A / K) <= A < K * (A / K) + K).
  { pose proof (Z.div_mod A K). pose proof (Z.mod_pos_bound A K). lia. }
  set (q := A / K) in *.
  change (2 ^ 52) with 4503599627370496 in *.
  change (2 ^ 53) with 9007199254740992 in *.
  change (2 ^ 21) with 2097152 in *.
  assert (HSt : S * (10 * t) <= S * (11 * n)) by (apply Z.mul_le_mono_nonneg_l; lia).
  assert (HSt' : S * (11 * n) <= S * (10 * t + 9)) by (apply Z.mul_le_mono_nonneg_l; lia).
  assert (HA : 10 * A = 4503599627370496 * (S * (11 * n)) + 4 * (n * S)) by (unfold A; ring).
  assert (Ht0 : 0 <= t) by lia.
  symmetry. apply Z.div_unique with (r := r - J * t); [left|ring].
  split.
  - (* t*J <= r *)
    destruct (Z.le_gt_cases (J * t) r) as [|Hlt]; [lia|exfalso].
    assert (K * (q + 1) <= K * (J * t)) by (apply Z.mul_le_mono_nonneg_l; lia).
    assert (K * (J * t) = 4503599627370496 * (S * t)) by (rewrite Z.mul_assoc, (Z.mul_comm K J), HJK; ring).
    lia.
  - (* r < (t+1)*J *)
    destruct (Z.lt_ge_cases r (J * t + J)) as [|Hge]; [lia|exfalso].
    assert (K * (J * (t + 1)) <= K * (q + 1)) by (apply Z.mul_le_mono_nonneg_l; lia).
    assert (K * (J * (t + 1)) = 4503599627370496 * (S * t) + 4503599627370496 * S) by (rewrite Z.mul_assoc, (Z.mul_comm K J), HJK; ring).
    lia.
Qed.

Lemma iter_xO p dd :
  Zpos (Pos.iter xO p dd) = Zpos p * 2 ^ Zpos dd /\
  Zpos (digits2_pos (Pos.iter xO p dd)) = Zpos (digits2_pos p) + Zpos dd.
Proof.
  induction dd as [|dd [IH1 IH2]] using Pos.peano_ind.
  - simpl Pos.iter. split; [rewrite Z.pow_1_r; lia | simpl digits2_pos; lia].
  - rewrite Pos.iter_succ. split.
    + rewrite Pos2Z.inj_succ, Z.pow_succ_r by lia.
      change (Zpos (Pos.iter xO p dd)~0) with (2 * Zpos (Pos.iter xO p dd)).
      rewrite IH1. ring.
    + simpl digits2_pos. rewrite Pos2Z.inj_succ, IH2. lia.
Qed.

(** The conversion of a nonzero integer of at most 53 digits: the
    mantissa shifted up to 53 digits, with the sign. *)
Lemma binary_round_int sx p :
  let d := Zpos (digits2_pos p) in
  d <= prec ->
  exists mz, binary_round prec emax sx p 0 = S754_finite sx mz (d - prec) /\
             Zpos mz = Zpos p * 2 ^ (prec - d) /\
             Zpos (digits2_pos mz) = prec.
Proof.
  intros d Hd. unfold binary_round. fold d.
  assert (Hf : fexp prec emax (d + 0) = d - prec)
    by (unfold fexp, emin, prec, emax in *; unfold d; lia).
  rewrite Hf. unfold shl_align.
  destruct (d - prec - 0) as [|dd|dd] eqn:E; try lia.
  - exists p. replace (d - prec) with 0 by lia. split; [|split].
    + apply round_aux_exact; [fold d; lia | unfold prec, emax; lia].
    + replace (prec - d) with 0 by lia. rewrite Z.pow_0_r. lia.
    + fold d. lia.
  - destruct (iter_xO p dd) as [I1 I2]. fold d in I2.
    exists (Pos.iter xO p dd). split; [|split].
    + apply round_aux_exact; [lia | unfold prec, emax in *; unfold d; lia].
    + rewrite I1. f_equal. f_equal. lia.
    + lia.
Qed.

(** Multiplying the double of an integer of magnitude [p <= 2^31] by the
    literal 1.10 and truncating. *)
Lemma mul110_trunc sx p :
  Zpos p <= 2 ^ 31 ->
  trunc (mul (binary_round prec emax sx p 0) c1_10)
  = Some (Double.signed sx (11 * Zpos p / 10)).
Proof.
  intros Hp.
  pose proof (digits_bounds p) as Hdp.
  remember (Zpos (digits2_pos p)) as d eqn:Ed.
  assert (Hd1 : 1 <= d) by lia.
  assert (Hd : d <= 32).
  { assert (d - 1 < 32); [|lia]. apply pow2_lt_mono; [lia|].
    change (2 ^ 32) with (2 * 2 ^ 31). lia. }
  destruct (binary_round_int sx p) as (mz & Eq & Hmz & Hdz);
    [rewrite <- Ed; unfold prec; lia|].
  rewrite <- Ed in Eq, Hmz. rewrite Eq.
  unfold mul, c1_10, SFmul. rewrite xorb_false_r.
  pose proof (digits_bounds mz) as Hbz. rewrite Hdz in Hbz.
  set (M := 4953959590107546%positive).
  pose proof (digits_bounds (mz * M)) as Hb.
  remember (Zpos (digits2_pos (mz * M))) as dm eqn:Edm.
  rewrite Pos2Z.inj_mul in Hb.
  assert (HM : 2 ^ 52 <= Zpos M < 2 ^ 53) by (unfold M; split; [apply Z.leb_le|apply Z.ltb_lt]; reflexivity).
  change (prec - 1) with 52 in Hbz. change prec with 53 in Hbz.
  assert (Hlow : 2 ^ 104 <= Zpos mz * Zpos M).
  { change (2 ^ 104) with (2 ^ 52 * 2 ^ 52). apply Z.mul_le_mono_nonneg; lia. }
  assert (Hup : Zpos mz * Zpos M < 2 ^ 106).
  { change (2 ^ 106) with (2 ^ 53 * 2 ^ 53). apply Z.mul_lt_mono_nonneg; lia. }
  assert (Hdm : 105 <= dm <= 106).
  { split.
    - assert (104 < dm); [|lia]. apply pow2_lt_mono; lia.
    - assert (dm - 1 < 106); [|lia]. apply pow2_lt_mono; lia. }
  destruct (round_aux_trunc sx (mz * M) (d - prec + -52)) as (r & Hr & Et);
    rewrite <- ?Edm; unfold prec, emax in *; try lia.
  rewrite <- Edm in Hr, Et.
  rewrite Et. f_equal. f_equal.
  set (k := dm - 53) in *.
  rewrite Z.shiftl_div_pow2 by lia.
  apply grow_arith with (S := 2 ^ (53 - d)) (K := 2 ^ k).
  - lia.
  - apply Z.pow_pos_nonneg; lia.
  - apply Z.pow_pos_nonneg; lia.
  - rewrite <- !Z.pow_add_r by lia. f_equal. lia.
  - rewrite <- Hmz. lia.
  - apply Z.pow_le_mono_r; lia.
  - apply Z.pow_le_mono_r; lia.
  - rewrite <- Hmz. exact Hr.
Qed.

(** [grow] is exact integer arithmetic: eleven tenths of [n], rounded
    toward zero, and undefined exactly when that leaves the range of
    [int]. *)
Lemma grow_quot n :
  Int.min_int <= n <= Int.max_int ->
  grow n = Int.checked (Z.quot (11 * n) 10).
Proof.
  unfold Int.min_int, Int.max_int. intros Hn. unfold grow, to_int.
  destruct n as [|p|p].
  - reflexivity.
  - unfold of_Z, binary_normalize. rewrite mul110_trunc by lia.
    cbn [obind signed]. now rewrite Z.quot_div_nonneg by lia.
  - unfold of_Z, binary_normalize. rewrite mul110_trunc by lia.
    cbn [obind signed]. f_equal.
    change (Zneg p) with (- Zpos p).
    rewrite Z.mul_opp_r, Z.quot_opp_l, Z.quot_div_nonneg by lia. reflexivity.
Qed.

(** *** Sums of integers are exact *)

Lemma digits_unique p d :
  2 ^ (d - 1) <= Zpos p < 2 ^ d -> Zpos (digits2_pos p) = d.
Proof.
  intros H. pose proof (digits_bounds p) as Hp.
  remember (Zpos (digits2_pos p)) as dp eqn:E.
  assert (1 <= dp) by lia.
  assert (1 <= d).
  { destruct (Z.le_gt_cases 1 d); [assumption|].
    destruct (Z.eq_dec d 0) as [->|]; [simpl in H; lia|].
    rewrite (Z.pow_neg_r 2 d) in H by lia. lia. }
  assert (dp - 1 < d) by (apply pow2_lt_mono; lia).
  assert (d - 1 < dp) by (apply pow2_lt_mono; lia).
  lia.
Qed.

Lemma digits_shift p q j :
  0 <= j -> Zpos q = Zpos p * 2 ^ j ->
  Zpos (digits2_pos q) = Zpos (digits2_pos p) + j.
Proof.
  intros Hj E. apply digits_unique. rewrite E.
  pose proof (digits_bounds p) as Hp.
  assert (0 < 2 ^ j) by (apply Z.pow_pos_nonneg; lia).
  replace (Zpos (digits2_pos p) + j - 1) with (Zpos (digits2_pos p) - 1 + j) by lia.
  rewrite !Z.pow_add_r by lia. split.
  - apply Z.mul_le_mono_nonneg_r; lia.
  - apply Z.mul_lt_mono_pos_r; lia.
Qed.

Lemma shr_1_even z :
  0 <= z ->
  shr_1 (Build_shr_record (2 * z) false false) = Build_shr_record z false false.
Proof. destruct z as [|q|q]; [reflexivity | reflexivity | lia]. Qed.

Lemma shr_iter_exact p : forall z,
  0 <= z ->
  iter_pos shr_1 p (Build_shr_record (z * 2 ^ Zpos p) false false)
  = Build_shr_record z false false.
Proof.
  induction p as [p IH|p IH|]; intros z Hz; cbn [iter_pos].
  - replace (z * 2 ^ Zpos p~1) with (2 * ((z * 2 ^ Zpos p) * 2 ^ Zpos p)).
    + assert (0 < 2 ^ Zpos p) by (apply Z.pow_pos_nonneg; lia).
      rewrite shr_1_even by (apply Z.mul_nonneg_nonneg; [apply Z.mul_nonneg_nonneg|]; lia).
      rewrite IH by (apply Z.mul_nonneg_nonneg; lia). now apply IH.
    + replace (Zpos p~1) with (1 + Zpos p + Zpos p) by lia.
      rewrite !Z.pow_add_r, Z.pow_1_r by lia. ring.
  - replace (z * 2 ^ Zpos p~0) with ((z * 2 ^ Zpos p) * 2 ^ Zpos p).
    + assert (0 < 2 ^ Zpos p) by (apply Z.pow_pos_nonneg; lia).
      rewrite IH by (apply Z.mul_nonneg_nonneg; lia). now apply IH.
    + replace (Zpos p~0) with (Zpos p + Zpos p) by lia.
      rewrite !Z.pow_add_r by lia. ring.
  - rewrite Z.pow_1_r, Z.mul_comm. now apply shr_1_even.
Qed.

(** A canonical mantissa followed by [k] zero digits rounds to itself. *)
Lemma round_aux_exact_shift sx m mm e k :
  Zpos (digits2_pos m) = prec -> 0 <= k ->
  Zpos mm = Zpos m * 2 ^ k ->
  3 - emax - prec <= e -> e + k <= emax - prec ->
  binary_round_aux prec emax sx (Zpos mm) e loc_Exact = S754_finite sx m (e + k).
Proof.
  intros Hd Hk Emm Hlo Hhi.
  destruct (Z.eq_dec k 0) as [->|Hk0].
  - rewrite Z.pow_0_r, Z.mul_1_r in Emm. injection Emm as ->.
    rewrite Z.add_0_r. apply round_aux_exact; [assumption | lia].
  - pose proof (digits_shift m mm k Hk Emm) as Hdm. rewrite Hd in Hdm.
    unfold binary_round_aux, shr_fexp. cbn [Zdigits2].
    rewrite fexp_normal by lia. rewrite Hdm.
    replace (prec + k - prec) with k by lia.
    destruct k as [|pk|pk]; try lia.
    cbn [shr shr_record_of_loc]. rewrite Emm.
    rewrite shr_iter_exact by lia.
    cbn [shr_m loc_of_shr_record round_nearest_even Zdigits2].
    rewrite fexp_normal by lia. rewrite Hd, Z.sub_diag.
    cbn [shr shr_record_of_loc shr_m].
    apply Z.leb_le in Hhi. now rewrite Hhi.
Qed.

Lemma shl_align_fst m e e' :
  e' <= e -> Zpos (fst (shl_align m e e')) = Zpos m * 2 ^ (e - e').
Proof.
  intros H. unfold shl_align.
  destruct (e' - e) as [|d|d] eqn:E; try lia; cbn [fst].
  - replace (e - e') with 0 by lia. rewrite Z.pow_0_r. lia.
  - destruct (iter_xO m d) as [-> _]. f_equal. f_equal. lia.
Qed.

(** The sum of two positive integers, when it has at most 53 digits. *)
Lemma add_of_Z_pos pa pb :
  Zpos pa + Zpos pb < 2 ^ prec ->
  add (of_Z (Zpos pa)) (of_Z (Zpos pb)) = of_Z (Zpos (pa + pb)).
Proof.
  intros Hsum.
  assert (digits_le : forall p, Zpos p < 2 ^ prec -> Zpos (digits2_pos p) <= prec).
  { intros p Hp. pose proof (digits_bounds p).
    assert (Zpos (digits2_pos p) - 1 < prec); [|lia].
    apply pow2_lt_mono; lia. }
  assert (digits_mono : forall p q, Zpos p <= Zpos q ->
            Zpos (digits2_pos p) <= Zpos (digits2_pos q)).
  { intros p q Hpq. pose proof (digits_bounds p). pose proof (digits_bounds q).
    assert (Zpos (digits2_pos p) - 1 < Zpos (digits2_pos q)); [|lia].
    apply pow2_lt_mono; lia. }
  unfold of_Z, binary_normalize.
  destruct (binary_round_int false pa) as (ma & -> & Ema & Hda); [apply digits_le; lia|].
  destruct (binary_round_int false pb) as (mb & -> & Emb & Hdb); [apply digits_le; lia|].
  destruct (binary_round_int false (pa + pb)) as (mc & -> & Emc & Hdc);
    [apply digits_le; rewrite Pos2Z.inj_add; lia|].
  pose proof (digits_le pa ltac:(lia)) as La.
  pose proof (digits_le pb ltac:(lia)) as Lb.
  pose proof (digits_le (pa + pb)%positive ltac:(rewrite Pos2Z.inj_add; lia)) as Lc.
  pose proof (digits_mono pa (pa + pb)%positive ltac:(rewrite Pos2Z.inj_add; lia)) as Mac.
  pose proof (digits_mono pb (pa + pb)%positive ltac:(rewrite Pos2Z.inj_add; lia)) as Mbc.
  remember (Zpos (digits2_pos pa)) as da eqn:Eda.
  remember (Zpos (digits2_pos pb)) as db eqn:Edb.
  remember (Zpos (digits2_pos (pa + pb))) as dc eqn:Edc.
  assert (1 <= da /\ 1 <= db /\ 1 <= dc) as (Pa & Pb & Pc) by lia.
  unfold add, SFadd. cbn [cond_Zopp].
  set (ez := Z.min (da - prec) (db - prec)).
  assert (Hza : ez <= da - prec) by (unfold ez; lia).
  assert (Hzb : ez <= db - prec) by (unfold ez; lia).
  rewrite (shl_align_fst ma _ ez Hza), (shl_align_fst mb _ ez Hzb).
  rewrite Ema, Emb, <- !Z.mul_assoc, <- !Z.pow_add_r by lia.
  replace (prec - da + (da - prec - ez)) with (- ez) by lia.
  replace (prec - db + (db - prec - ez)) with (- ez) by lia.
  rewrite <- Z.mul_add_distr_r, <- Pos2Z.inj_add.
  assert (Hpos : 0 < 2 ^ (- ez)) by (apply Z.pow_pos_nonneg; lia).
  destruct (Zpos (pa + pb) * 2 ^ (- ez)) as [|ms|ms] eqn:Ems; try lia.
  symmetry in Ems.
  cbn [binary_normalize]. unfold binary_round.
  pose proof (digits_shift (pa + pb) ms (- ez) ltac:(lia) Ems) as Hdms.
  rewrite <- Edc in Hdms. rewrite Hdms.
  assert (Hf : fexp prec emax (dc + - ez + ez) = dc - prec)
    by (unfold fexp, emin, prec, emax in *; lia).
  rewrite Hf. unfold shl_align.
  destruct (dc - prec - ez) as [|d|d] eqn:Ed; try lia.
  - replace (dc - prec) with (ez + 0) by lia.
    apply round_aux_exact_shift; try (unfold prec, emax in *; lia).
    rewrite Ems, Emc. rewrite Z.pow_0_r, Z.mul_1_r. f_equal. f_equal. lia.
  - replace (dc - prec) with (ez + Zpos d) by lia.
    apply round_aux_exact_shift; try (unfold prec, emax in *; lia).
    rewrite Ems, Emc, <- Z.mul_assoc, <- Z.pow_add_r by lia.
    f_equal. f_equal. lia.
Qed.

(** The sum of two non-negative integers, when it is below [2^53]. *)
Lemma add_of_Z a b :
  0 <= a -> 0 <= b -> a + b < 2 ^ prec ->
  add (of_Z a) (of_Z b) = of_Z (a + b).
Proof.
  intros Ha Hb Hs. destruct a as [|pa|pa], b as [|pb|pb]; try lia.
  - reflexivity.
  - cbn [Z.add]. unfold of_Z at 1. cbn [binary_normalize].
    destruct (binary_round_int false pb) as (mb & E & _).
    { pose proof (digits_bounds pb).
      assert (Zpos (digits2_pos pb) - 1 < prec); [|lia].
      apply pow2_lt_mono; lia. }
    unfold of_Z, binary_normalize. rewrite E. reflexivity.
  - rewrite Z.add_0_r. unfold of_Z at 2. cbn [binary_normalize].
    destruct (binary_round_int false pa) as (ma & E & _).
    { pose proof (digits_bounds pa).
      assert (Zpos (digits2_pos pa) - 1 < prec); [|lia].
      apply pow2_lt_mono; lia. }
    unfold of_Z, binary_normalize. rewrite E. reflexivity.
  - now apply add_of_Z_pos.
Qed.

(** Converting a non-negative integer below [2^53] loses nothing. *)
Lemma trunc_of_Z a : 0 <= a < 2 ^ prec -> trunc (of_Z a) = Some a.
Proof.
  intros [H0 Hlt]. destruct a as [|p|p]; [reflexivity | | lia].
  pose proof (digits_bounds p) as Hb.
  assert (Hd : Zpos (digits2_pos p) <= prec).
  { assert (Zpos (digits2_pos p) - 1 < prec); [|lia]. apply pow2_lt_mono; lia. }
  unfold of_Z, binary_normalize.
  destruct (binary_round_int false p Hd) as (mz & -> & Emz & _).
  cbn [trunc signed]. f_equal.
  rewrite Z.shiftl_div_pow2 by lia. rewrite Emz.
  replace (- (Zpos (digits2_pos p) - prec)) with (prec - Zpos (digits2_pos p)) by lia.
  apply Z.div_mul. apply Z.pow_nonzero; lia.
Qed.

Lemma of_Z_inj a b :
  0 <= a < 2 ^ prec -> 0 <= b < 2 ^ prec -> of_Z a = of_Z b -> a = b.
Proof.
  intros Ha Hb E. apply (f_equal trunc) in E.
  rewrite !trunc_of_Z in E by assumption. congruence.
Qed.

End DoubleFacts.

(** ** The growth rule *)

Lemma grow_nonneg n :
  0 <= n <= max_request ->
  grow n = Some (11 * n / 10) /\ n <= 11 * n / 10 <= Int.max_int.
Proof.
  unfold max_request. intros Hn.
  assert (Hq : n <= 11 * n / 10 <= Int.max_int).
  { unfold Int.max_int. change (2 ^ 31 - 1) with 2147483647.
    pose proof (Z.div_mod (11 * n) 10).
    pose proof (Z.mod_pos_bound (11 * n) 10). lia. }
  split; [|exact Hq].
  rewrite DoubleFacts.grow_quot by (unfold Int.min_int, Int.max_int; lia).
  rewrite Z.quot_div_nonneg by lia.
  apply IntFacts.checked_in. unfold Int.min_int in *. lia.
Qed.

(** Whatever [grow] returns for a non-negative [int] is eleven tenths of
    it rounded down, which is at least the request. *)
Lemma grow_Some n r :
  0 <= n <= Int.max_int -> grow n = Some r -> r = 11 * n / 10 /\ n <= r.
Proof.
  intros Hn E.
  rewrite DoubleFacts.grow_quot in E by (unfold Int.min_int; lia).
  apply IntFacts.checked_Some in E. destruct E as [-> _].
  rewrite Z.quot_div_nonneg by lia. split; [reflexivity|].
  pose proof (Z.div_mod (11 * n) 10).
  pose proof (Z.mod_pos_bound (11 * n) 10). lia.
Qed.

Example grow_samples :
  map grow [0; 1; 9; 10; 15; 1000; -15; max_request; max_request + 1]
  = [Some 0; Some 1; Some 9; Some 11; Some 16; Some 1100; Some (-16);
     Some Int.max_int; None].
Proof. vm_compute. reflexivity. Qed.

(** ** Resizing *)

Module ResizeFacts.
Import Neighbor.

Section WithAlloc.

Variable alloc : t -> bool -> t * bool.
Hypothesis frame : keeps_capacity alloc.

Lemma alloc_max_atoms s b : _max_atoms (fst (alloc s b)) = _max_atoms s.
Proof. apply frame. Qed.

Lemma alloc_max_host s b : _max_host (fst (alloc s b)) = _max_host s.
Proof. apply frame. Qed.

Lemma alloc_max_nbors s b : _max_nbors (fst (alloc s b)) = _max_nbors s.
Proof. apply frame. Qed.

(** The conditional growth of [_max_nbors], shared by the two overloads. *)
Lemma grow_nbors_mono s max_nbor s' :
  is_int max_nbor -> 0 <= _max_nbors s ->
  (if max_nbor >? _max_nbors s
   then n <- grow max_nbor ;; Some (set_max_nbors n s)
   else Some s) = Some s' ->
  _max_nbors s <= _max_nbors s' /\ max_nbor <= _max_nbors s'.
Proof.
  intros [_ Hi] H0. destruct (Z.gtb_spec max_nbor (_max_nbors s)) as [Hgt|Hle].
  - destruct (grow max_nbor) as [n|] eqn:E; [|discriminate].
    intros [= <-]. apply grow_Some in E; [|lia]. cbn. lia.
  - intros [= <-]. lia.
Qed.

Lemma resize_max_nbors_mono s inum max_nbor b s' b' :
  is_int max_nbor -> 0 <= _max_nbors s ->
  resize alloc s inum max_nbor b = Some (s', b') ->
  _max_nbors s <= _max_nbors s'.
Proof.
  intros Hi H0. unfold resize.
  destruct (_ || _); [|intros [= <- <-]; lia].
  destruct (grow inum) as [a|]; [|discriminate]. cbn [obind].
  destruct (if max_nbor >? _ then _ else _) as [s2|] eqn:E2; [|discriminate].
  cbn [obind]. intros E. injection E as E.
  apply grow_nbors_mono in E2; [|assumption|exact H0].
  cbn in E2.
  assert (Hs : s' = fst (alloc s2 b)) by (rewrite E; reflexivity).
  rewrite Hs, alloc_max_nbors. lia.
Qed.

Lemma resize_host_max_nbors_mono s inum host_inum max_nbor b s' b' :
  is_int max_nbor -> 0 <= _max_nbors s ->
  resize_host alloc s inum host_inum max_nbor b = Some (s', b') ->
  _max_nbors s <= _max_nbors s'.
Proof.
  intros Hi H0. unfold resize_host.
  destruct (_ || _); [|intros [= <- <-]; lia].
  destruct (grow inum) as [a|]; [|discriminate]. cbn [obind].
  destruct (grow host_inum) as [h|]; [|discriminate]. cbn [obind].
  destruct (if max_nbor >? _ then _ else _) as [s3|] eqn:E3; [|discriminate].
  cbn [obind]. intros E. injection E as E.
  apply grow_nbors_mono in E3; [|assumption|exact H0].
  cbn in E3.
  assert (Hs : s' = fst (alloc s3 b)) by (rewrite E; reflexivity).
  rewrite Hs, alloc_max_nbors. lia.
Qed.

Lemma run_max_nbors_mono cs : forall st st',
  Forall call_int cs -> 0 <= _max_nbors (fst st) ->
  run alloc cs st = Some st' ->
  _max_nbors (fst st) <= _max_nbors (fst st').
Proof.
  induction cs as [|c cs IH]; intros [s b] st' Hcs H0; cbn [run].
  - intros [= <-]. lia.
  - inversion Hcs as [|c0 cs0 Hc Hcs']; subst.
    destruct (do_call alloc c (s, b)) as [[s1 b1]|] eqn:E; [|discriminate].
    cbn [obind]. intros Hrun. cbn [fst] in *.
    assert (Hstep : _max_nbors s <= _max_nbors s1).
    { destruct c as [inum max_nbor|inum host_inum max_nbor]; cbn in E, Hc.
      - eapply resize_max_nbors_mono; [apply Hc|exact H0|exact E].
      - eapply resize_host_max_nbors_mono; [apply Hc|exact H0|exact E]. }
    specialize (IH (s1, b1) st' Hcs'). cbn [fst] in IH.
    specialize (IH ltac:(lia) Hrun). lia.
Qed.

(** A growing call of the first overload, in full. *)
Lemma resize_grows s inum max_nbor b :
  request inum -> request max_nbor ->
  inum > _max_atoms s \/ max_nbor > _max_nbors s ->
  exists s' b',
    resize alloc s inum max_nbor b = Some (s', b') /\
    _max_atoms s' = 11 * inum / 10 /\
    _max_host s' = _max_host s /\
    _max_nbors s' = (if max_nbor >? _max_nbors s
                     then 11 * max_nbor / 10 else _max_nbors s).
Proof.
  intros Hi Hm Hex. unfold resize.
  assert (G : (inum >? _max_atoms s) || (max_nbor >? _max_nbors s) = true).
  { apply orb_true_iff. rewrite !Z.gtb_gt. lia. }
  rewrite G. destruct (grow_nonneg inum Hi) as [-> _]. cbn [obind].
  change (_max_nbors (set_max_atoms (11 * inum / 10) s)) with (_max_nbors s).
  destruct (max_nbor >? _max_nbors s) eqn:Gn.
  - destruct (grow_nonneg max_nbor Hm) as [-> _]. cbn [obind].
    destruct (alloc _ b) as [s' b'] eqn:Ea.
    exists s', b'. split; [reflexivity|].
    replace s' with (fst (alloc (set_max_nbors (11 * max_nbor / 10)
      (set_max_atoms (11 * inum / 10) s)) b)) by (rewrite Ea; reflexivity).
    rewrite alloc_max_atoms, alloc_max_host, alloc_max_nbors. now cbn.
  - cbn [obind]. destruct (alloc _ b) as [s' b'] eqn:Ea.
    exists s', b'. split; [reflexivity|].
    replace s' with (fst (alloc (set_max_atoms (11 * inum / 10) s) b))
      by (rewrite Ea; reflexivity).
    rewrite alloc_max_atoms, alloc_max_host, alloc_max_nbors. now cbn.
Qed.

(** A growing call of the overload with [host_inum], in full. *)
Lemma resize_host_grows s inum host_inum max_nbor b :
  request inum -> request host_inum -> request max_nbor ->
  inum > _max_atoms s \/ max_nbor > _max_nbors s \/ host_inum > _max_host s ->
  exists s' b',
    resize_host alloc s inum host_inum max_nbor b = Some (s', b') /\
    _max_atoms s' = 11 * inum / 10 /\
    _max_host s' = 11 * host_inum / 10 /\
    _max_nbors s' = (if max_nbor >? _max_nbors s
                     then 11 * max_nbor / 10 else _max_nbors s).
Proof.
  intros Hi Hh Hm Hex. unfold resize_host.
  assert (G : (inum >? _max_atoms s) || (max_nbor >? _max_nbors s)
              || (host_inum >? _max_host s) = true).
  { rewrite !orb_true_iff, !Z.gtb_gt. lia. }
  rewrite G. destruct (grow_nonneg inum Hi) as [-> _]. cbn [obind].
  destruct (grow_nonneg host_inum Hh) as [-> _]. cbn [obind].
  change (_max_nbors (set_max_host (11 * host_inum / 10)
            (set_max_atoms (11 * inum / 10) s))) with (_max_nbors s).
  destruct (max_nbor >? _max_nbors s) eqn:Gn.
  - destruct (grow_nonneg max_nbor Hm) as [-> _]. cbn [obind].
    destruct (alloc _ b) as [s' b'] eqn:Ea.
    exists s', b'. split; [reflexivity|].
    replace s' with (fst (alloc (set_max_nbors (11 * max_nbor / 10)
      (set_max_host (11 * host_inum / 10)
         (set_max_atoms (11 * inum / 10) s))) b)) by (rewrite Ea; reflexivity).
    rewrite alloc_max_atoms, alloc_max_host, alloc_max_nbors. now cbn.
  - cbn [obind]. destruct (alloc _ b) as [s' b'] eqn:Ea.
    exists s', b'. split; [reflexivity|].
    replace s' with (fst (alloc (set_max_host (11 * host_inum / 10)
         (set_max_atoms (11 * inum / 10) s)) b)) by (rewrite Ea; reflexivity).
    rewrite alloc_max_atoms, alloc_max_host, alloc_max_nbors. now cbn.
Qed.

End WithAlloc.

(** Calls within the request range never run into undefined behaviour. *)
Lemma do_call_defined alloc c st :
  call_request c -> exists st', do_call alloc c st = Some st'.
Proof.
  destruct st as [s b]. destruct c as [inum max_nbor|inum host_inum max_nbor];
    cbn [call_request do_call fst snd].
  - intros [Hi Hm]. unfold resize.
    destruct (_ || _); [|eauto].
    destruct (grow_nonneg inum Hi) as [-> _]. cbn [obind].
    destruct (_ >? _); [|cbn [obind]; eauto].
    destruct (grow_nonneg max_nbor Hm) as [-> _]. cbn [obind]. eauto.
  - intros (Hi & Hh & Hm). unfold resize_host.
    destruct (_ || _); [|eauto].
    destruct (grow_nonneg inum Hi) as [-> _]. cbn [obind].
    destruct (grow_nonneg host_inum Hh) as [-> _]. cbn [obind].
    destruct (_ >? _); [|cbn [obind]; eauto].
    destruct (grow_nonneg max_nbor Hm) as [-> _]. cbn [obind]. eauto.
Qed.

Lemma run_defined alloc cs : forall st,
  Forall call_request cs -> exists st', run alloc cs st = Some st'.
Proof.
  induction cs as [|c cs IH]; intros st Hcs; cbn [run]; [eauto|].
  inversion Hcs as [|c0 cs0 Hc Hcs']; subst.
  destruct (do_call_defined alloc c st Hc) as [st1 ->]. cbn [obind].
  now apply IH.
Qed.

End ResizeFacts.

(** ** Claims about [resize] *)

(** C1, as stated, fails.  One call suffices: a manager holding 1000
    atoms and 10 neighbors is asked for 10 atoms and 15 neighbors.  The
    neighbor request exceeds the capacity, so the call reallocates; it
    sets [_max_atoms] to 11, below the 1000 it had, and [_max_nbors] to
    16, below 110% of the 15 requested. *)
Lemma resize_capacity_counterexample :
  let s := Sample.manager 0 1000 0 10 false (0, 0, 0) [] [] in
  exists s',
    Neighbor.resize Sample.alloc_keep s 10 15 true = Some (s', true) /\
    Neighbor._max_atoms s' < Neighbor._max_atoms s /\
    10 * Neighbor._max_nbors s' < 11 * 15.
Proof.
  eexists. split; [vm_compute; reflexivity|]. cbn. lia.
Qed.

(** C1 (amended).  For an [alloc] that leaves the capacity members alone:
    a sequence of calls with requests in range is defined; along any
    sequence [_max_nbors] never decreases; and a call in which some
    request exceeds its capacity sets [_max_atoms] (and [_max_host] in
    the overload that has it) to the request times 1.10 truncated,
    whether or not that dimension was exceeded, and [_max_nbors] to the
    truncated 1.10 times its request only when that request exceeded it.
    The truncated product is [11*n/10] rounded down: at least the request,
    less than one below 110% of it. *)
Theorem resize_capacity (alloc : Neighbor.t -> bool -> Neighbor.t * bool) :
  Neighbor.keeps_capacity alloc ->
  (forall cs st,
     Forall Neighbor.call_request cs ->
     exists st', Neighbor.run alloc cs st = Some st') /\
  (forall cs st st',
     Forall Neighbor.call_int cs ->
     0 <= Neighbor._max_nbors (fst st) ->
     Neighbor.run alloc cs st = Some st' ->
     Neighbor._max_nbors (fst st) <= Neighbor._max_nbors (fst st')) /\
  (forall s inum max_nbor b,
     Neighbor.request inum -> Neighbor.request max_nbor ->
     inum > Neighbor._max_atoms s \/ max_nbor > Neighbor._max_nbors s ->
     exists s' b',
       Neighbor.resize alloc s inum max_nbor b = Some (s', b') /\
       Neighbor._max_atoms s' = 11 * inum / 10 /\
       Neighbor._max_host s' = Neighbor._max_host s /\
       Neighbor._max_nbors s' =
         (if max_nbor >? Neighbor._max_nbors s
          then 11 * max_nbor / 10 else Neighbor._max_nbors s)) /\
  (forall s inum host_inum max_nbor b,
     Neighbor.request inum -> Neighbor.request host_inum ->
     Neighbor.request max_nbor ->
     inum > Neighbor._max_atoms s \/ max_nbor > Neighbor._max_nbors s
     \/ host_inum > Neighbor._max_host s ->
     exists s' b',
       Neighbor.resize_host alloc s inum host_inum max_nbor b
       = Some (s', b') /\
       Neighbor._max_atoms s' = 11 * inum / 10 /\
       Neighbor._max_host s' = 11 * host_inum / 10 /\
       Neighbor._max_nbors s' =
         (if max_nbor >? Neighbor._max_nbors s
          then 11 * max_nbor / 10 else Neighbor._max_nbors s)) /\
  (forall n, 0 <= n -> n <= 11 * n / 10 /\ 11 * n - 10 < 10 * (11 * n / 10) <= 11 * n).
Proof.
  intros frame. repeat split.
  - intros cs st. apply ResizeFacts.run_defined.
  - intros cs st st'. now apply ResizeFacts.run_max_nbors_mono.
  - intros s inum max_nbor b. now apply ResizeFacts.resize_grows.
  - intros s inum host_inum max_nbor b. now apply ResizeFacts.resize_host_grows.
  - pose proof (Z.div_mod (11 * n) 10).
    pose proof (Z.mod_pos_bound (11 * n) 10). lia.
  - pose proof (Z.div_mod (11 * n) 10).
    pose proof (Z.mod_pos_bound (11 * n) 10). lia.
  - pose proof (Z.div_mod (11 * n) 10).
    pose proof (Z.mod_pos_bound (11 * n) 10). lia.
Qed.

Lemma alloc_keep_frame : Neighbor.keeps_capacity Sample.alloc_keep.
Proof. intros s b. cbn. repeat split. Defined.

Lemma resize_capacity_witness :
  let s := Sample.manager 0 1000 5 10 false (0, 0, 0) [] [] in
  let cs := [Neighbor.Resize 10 15; Neighbor.ResizeHost 2000 7 12] in
  Neighbor.keeps_capacity Sample.alloc_keep /\
  Forall Neighbor.call_request cs /\
  Forall Neighbor.call_int cs /\
  (exists st', Neighbor.run Sample.alloc_keep cs (s, true) = Some st') /\
  (forall st', Neighbor.run Sample.alloc_keep cs (s, true) = Some st' ->
               10 <= Neighbor._max_nbors (fst st')) /\
  (exists s' b',
     Neighbor.resize Sample.alloc_keep s 10 15 true = Some (s', b') /\
     Neighbor._max_atoms s' = 11 /\ Neighbor._max_host s' = 5 /\
     Neighbor._max_nbors s' = 16) /\
  (exists s' b',
     Neighbor.resize_host Sample.alloc_keep s 2000 7 12 true = Some (s', b') /\
     Neighbor._max_atoms s' = 2200 /\ Neighbor._max_host s' = 7 /\
     Neighbor._max_nbors s' = 13).
Proof.
  intros s cs.
  assert (Hreq : Forall Neighbor.call_request cs).
  { unfold cs, Neighbor.call_request, Neighbor.request, max_request.
    repeat constructor; lia. }
  assert (Hint : Forall Neighbor.call_int cs).
  { unfold cs, Neighbor.call_int, Neighbor.is_int, Int.min_int, Int.max_int.
    repeat constructor; lia. }
  destruct (resize_capacity Sample.alloc_keep alloc_keep_frame)
    as (Hdef & Hmono & Hone & Hhost & _).
  split; [exact alloc_keep_frame|].
  split; [exact Hreq|]. split; [exact Hint|].
  split; [exact (Hdef cs (s, true) Hreq)|].
  split.
  - intros st' Hrun.
    apply (Hmono cs (s, true) st' Hint); [cbn; lia | exact Hrun].
  - split.
    + apply (Hone s 10 15 true);
        unfold Neighbor.request, max_request; cbn; lia.
    + apply (Hhost s 2000 7 12 true);
        unfold Neighbor.request, max_request; cbn; lia.
Defined.

(** C8.  A request within the current capacity in every dimension makes
    either overload return at once: the manager and the success flag come
    back as they were, whatever [alloc] would have done. *)
Theorem resize_within_capacity
  (alloc : Neighbor.t -> bool -> Neighbor.t * bool)
  (s : Neighbor.t) (inum host_inum max_nbor : Z) (success : bool) :
  inum <= Neighbor._max_atoms s ->
  max_nbor <= Neighbor._max_nbors s ->
  Neighbor.resize alloc s inum max_nbor success = Some (s, success) /\
  (host_inum <= Neighbor._max_host s ->
   Neighbor.resize_host alloc s inum host_inum max_nbor success
   = Some (s, success)).
Proof.
  intros Ha Hn. unfold Neighbor.resize, Neighbor.resize_host.
  assert (Ga : (inum >? Neighbor._max_atoms s) = false)
    by (rewrite Z.gtb_ltb; apply Z.ltb_ge; exact Ha).
  assert (Gn : (max_nbor >? Neighbor._max_nbors s) = false)
    by (rewrite Z.gtb_ltb; apply Z.ltb_ge; exact Hn).
  rewrite Ga, Gn. cbn [orb]. split; [reflexivity|].
  intros Hh.
  assert (Gh : (host_inum >? Neighbor._max_host s) = false)
    by (rewrite Z.gtb_ltb; apply Z.ltb_ge; exact Hh).
  now rewrite Gh.
Qed.

Lemma resize_within_capacity_witness :
  let s := Sample.manager 1 1000 50 40 false (0, 0, 0) [] [] in
  1000 <= Neighbor._max_atoms s /\ 40 <= Neighbor._max_nbors s /\
  50 <= Neighbor._max_host s /\
  Neighbor.resize Sample.alloc_fail s 1000 40 true = Some (s, true) /\
  Neighbor.resize_host Sample.alloc_fail s 1000 50 40 true = Some (s, true).
Proof.
  intros s.
  assert (Ha : 1000 <= Neighbor._max_atoms s) by (cbn; lia).
  assert (Hn : 40 <= Neighbor._max_nbors s) by (cbn; lia).
  assert (Hh : 50 <= Neighbor._max_host s) by (cbn; lia).
  destruct (resize_within_capacity Sample.alloc_fail s 1000 50 40 true Ha Hn)
    as [H2 H3].
  split; [exact Ha|]. split; [exact Hn|]. split; [exact Hh|].
  split; [exact H2 | exact (H3 Hh)].
Defined.

(** ** The scan for the largest neighbor count *)

Module ScanFacts.
Import Neighbor.

Lemma entry_fun numj ilist i c c' :
  entry numj ilist i c -> entry numj ilist i c' -> c = c'.
Proof. intros (j & Ej & Ec) (j' & Ej' & Ec'). congruence. Qed.

(** The loop from index [i]: it is defined when the entries it visits
    are, and it returns the larger of the running maximum and the entries
    visited. *)
Lemma max_nbor_from_spec numj ilist todo : forall i mn,
  (forall x, i <= x < i + Z.of_nat todo -> exists c, entry numj ilist x c) ->
  exists r,
    max_nbor_from todo i mn numj ilist = Some r /\
    mn <= r /\
    (forall x c, i <= x < i + Z.of_nat todo -> entry numj ilist x c -> c <= r) /\
    (r = mn \/ exists x, i <= x < i + Z.of_nat todo /\ entry numj ilist x r).
Proof.
  induction todo as [|todo IH]; intros i mn Hval.
  - exists mn. cbn [max_nbor_from].
    split; [reflexivity|]. split; [lia|]. split; [|now left].
    intros x c Hx. lia.
  - destruct (Hval i ltac:(lia)) as (c0 & j0 & Ej & Ec).
    cbn [max_nbor_from]. rewrite Ej. cbn [obind]. rewrite Ec. cbn [obind].
    destruct (IH (i + 1) (Z.max mn c0)) as (r & Er & Hge & Hub & Hat).
    { intros x Hx. apply Hval. lia. }
    exists r. split; [exact Er|]. split; [lia|]. split.
    + intros x c Hx Hc.
      destruct (Z.eq_dec x i) as [->|Hne].
      * assert (c = c0) by (eapply entry_fun; [exact Hc | exists j0; auto]).
        lia.
      * apply (Hub x c); [lia | exact Hc].
    + destruct Hat as [->|(x & Hx & Hc)].
      * destruct (Z.max_spec mn c0) as [[_ ->]|[_ ->]].
        -- right. exists i. split; [lia | exists j0; auto].
        -- now left.
      * right. exists x. split; [lia | exact Hc].
Qed.

End ScanFacts.

(** C10.  For [inum >= 0] and arrays in which every [ilist[i]], [i <
    inum], indexes a non-negative entry of [numj], [max_nbor_loop]
    returns a value that bounds every [numj[ilist[i]]] and, when there is
    an entry at all, is one of them: their maximum.  For [inum = 0] it
    returns 0. *)
Theorem max_nbor_loop_maximum (inum : Z) (numj ilist : list Z) :
  0 <= inum ->
  (forall i, 0 <= i < inum ->
     exists c, Neighbor.entry numj ilist i c /\ 0 <= c) ->
  exists mn,
    Neighbor.max_nbor_loop inum numj ilist = Some mn /\
    (forall i c, 0 <= i < inum -> Neighbor.entry numj ilist i c -> c <= mn) /\
    (0 < inum -> exists i, 0 <= i < inum /\ Neighbor.entry numj ilist i mn) /\
    (inum = 0 -> mn = 0).
Proof.
  intros Hn Hval. unfold Neighbor.max_nbor_loop.
  destruct (ScanFacts.max_nbor_from_spec numj ilist (Z.to_nat inum) 0 0)
    as (r & Er & Hge & Hub & Hat).
  { intros x Hx. rewrite Z2Nat.id in Hx by lia.
    destruct (Hval x ltac:(lia)) as (c & Hc & _). now exists c. }
  rewrite Z2Nat.id in Hub, Hat by lia.
  exists r. split; [exact Er|]. split; [exact Hub|]. split.
  - intros Hpos. destruct Hat as [->|Hat]; [|exact Hat].
    (* the running maximum stayed 0: the first entry is 0 itself *)
    destruct (Hval 0 ltac:(lia)) as (c & Hc & Hc0).
    assert (c <= 0) by (apply (Hub 0 c); [lia | exact Hc]).
    exists 0. split; [lia|]. now replace 0 with c at 2 by lia.
  - intros ->. destruct Hat as [->|(x & Hx & _)]; [reflexivity | lia].
Qed.

Lemma max_nbor_loop_maximum_witness :
  let numj := [3; 0; 7; 5] in
  let ilist := [2; 0; 3] in
  0 <= 3 /\
  (forall i, 0 <= i < 3 ->
     exists c, Neighbor.entry numj ilist i c /\ 0 <= c) /\
  exists mn,
    Neighbor.max_nbor_loop 3 numj ilist = Some mn /\
    (forall i c, 0 <= i < 3 -> Neighbor.entry numj ilist i c -> c <= mn) /\
    (0 < 3 -> exists i, 0 <= i < 3 /\ Neighbor.entry numj ilist i mn) /\
    (3 = 0 -> mn = 0).
Proof.
  intros numj ilist.
  assert (Hval : forall i, 0 <= i < 3 ->
            exists c, Neighbor.entry numj ilist i c /\ 0 <= c).
  { intros i Hi.
    assert (Hc : i = 0 \/ i = 1 \/ i = 2) by lia.
    destruct Hc as [-> | [-> | ->]].
    - exists 7. split; [exists 2; split; reflexivity | lia].
    - exists 3. split; [exists 0; split; reflexivity | lia].
    - exists 5. split; [exists 3; split; reflexivity | lia]. }
  split; [lia|]. split; [exact Hval|].
  apply (max_nbor_loop_maximum 3 numj ilist); [lia | exact Hval].
Defined.

Example max_nbor_loop_sample :
  Neighbor.max_nbor_loop 3 [3; 0; 7; 5] [2; 0; 3] = Some 7 /\
  Neighbor.max_nbor_loop 0 [3; 0; 7; 5] [2; 0; 3] = Some 0 /\
  Neighbor.max_nbor_loop 2 [3; 0; 7; 5] [1; 9] = None.
Proof. repeat split. Qed.

(** C3, against the rescan step as the design document gives it (the body
    of [build_nbor_list] is not among the sources).  When some particle's
    count exceeds the allocated [_max_nbors], the step returns
    [success = false] and, as [max_nbors], the largest count observed: a
    bound on every count that one of the particles attains. *)
Theorem build_nbor_list_overflow (s : Neighbor.t) (inum : Z)
  (numj ilist : list Z) (success : bool) :
  0 <= inum ->
  (forall i, 0 <= i < inum ->
     exists c, Neighbor.entry numj ilist i c /\ 0 <= c) ->
  (exists i c, 0 <= i < inum /\ Neighbor.entry numj ilist i c /\
               Neighbor._max_nbors s < c) ->
  exists mn,
    Neighbor.build_nbor_list s inum numj ilist success
    = Some (false, mn) /\
    Neighbor._max_nbors s < mn /\
    (forall i c, 0 <= i < inum -> Neighbor.entry numj ilist i c -> c <= mn) /\
    (exists i, 0 <= i < inum /\ Neighbor.entry numj ilist i mn).
Proof.
  intros Hn Hval (i & c & Hi & Hc & Hover).
  unfold Neighbor.build_nbor_list, Neighbor.max_nbor_loop.
  destruct (ScanFacts.max_nbor_from_spec numj ilist (Z.to_nat inum) 0 0)
    as (r & Er & Hge & Hub & Hat).
  { intros x Hx. rewrite Z2Nat.id in Hx by lia.
    destruct (Hval x ltac:(lia)) as (c' & Hc' & _). now exists c'. }
  rewrite Z2Nat.id in Hub, Hat by lia.
  rewrite Er. cbn [obind].
  assert (Hle : c <= r) by (apply (Hub i c); assumption).
  assert (G : (r >? Neighbor._max_nbors s) = true) by (apply Z.gtb_gt; lia).
  rewrite G. exists r.
  split; [reflexivity|]. split; [lia|]. split; [exact Hub|].
  destruct Hat as [->|Hat]; [|exact Hat].
  (* the running maximum stayed 0, so the overflowing count is 0 *)
  destruct (Hval i Hi) as (c' & Hc' & Hc0).
  assert (c' = c) by (eapply ScanFacts.entry_fun; eassumption). subst c'.
  exists i. split; [exact Hi|]. now replace 0 with c by lia.
Qed.

Lemma build_nbor_list_overflow_witness :
  let s := Sample.manager 1 3 0 4 false (0, 0, 0) [] [] in
  let numj := [3; 0; 7; 5] in
  let ilist := [2; 0; 3] in
  exists mn,
    Neighbor.build_nbor_list s 3 numj ilist true = Some (false, mn) /\
    Neighbor._max_nbors s < mn /\
    (forall i c, 0 <= i < 3 -> Neighbor.entry numj ilist i c -> c <= mn) /\
    (exists i, 0 <= i < 3 /\ Neighbor.entry numj ilist i mn).
Proof.
  intros s numj ilist.
  apply (build_nbor_list_overflow s 3 numj ilist true).
  - lia.
  - intros i Hi.
    assert (Hc : i = 0 \/ i = 1 \/ i = 2) by lia.
    destruct Hc as [-> | [-> | ->]].
    + exists 7. split; [exists 2; split; reflexivity | lia].
    + exists 3. split; [exists 0; split; reflexivity | lia].
    + exists 5. split; [exists 3; split; reflexivity | lia].
  - exists 0, 7. split; [lia|]. split; [exists 2; split; reflexivity|].
    cbn. lia.
Defined.

Example build_nbor_list_samples :
  let s := Sample.manager 1 3 0 4 false (0, 0, 0) [] [] in
  Neighbor.build_nbor_list s 3 [3; 0; 7; 5] [2; 0; 3] true
  = Some (false, 7) /\
  Neighbor.build_nbor_list s 2 [3; 0; 7; 5] [1; 0] true
  = Some (true, 3).
Proof. repeat split. Qed.

(** ** Duplicating the neighbor matrix *)

(** C9, as stated, fails: the copy is made with packing disabled too.
    Two particles with one neighbor row: the six elements of [dev_nbor]
    land in [dev_packed] although [_use_packing] is false. *)
Lemma copy_unpacked_counterexample :
  let s := Sample.manager 0 2 0 1 false (0, 0, 0)
             [10; 11; 1; 1; 11; 10] [0; 0; 0; 0; 0; 0] in
  Neighbor._use_packing s = false /\
  exists s',
    Neighbor.copy_unpacked s 2 1 = Some s' /\
    Neighbor.dev_packed s' = [10; 11; 1; 1; 11; 10] /\
    Neighbor.dev_packed s' <> Neighbor.dev_packed s.
Proof.
  split; [reflexivity|]. eexists. split; [vm_compute; reflexivity|].
  split; [reflexivity | discriminate].
Qed.

(** C9 (amended).  [copy_unpacked(inum, maxj)] copies the first
    [inum*(maxj+2)] elements of [dev_nbor] over the start of [dev_packed]
    and touches nothing else; the packing flag plays no part: with either
    setting of it the same copy is made. *)
Theorem copy_unpacked_copies (s : Neighbor.t) (inum maxj : Z) :
  let numel := inum * (maxj + 2) in
  let n := Z.to_nat numel in
  Neighbor.is_int (maxj + 2) -> Neighbor.is_int numel ->
  0 <= numel <= Z.of_nat (List.length (Neighbor.dev_nbor s)) ->
  numel <= Z.of_nat (List.length (Neighbor.dev_packed s)) ->
  exists s',
    Neighbor.copy_unpacked s inum maxj = Some s' /\
    s' = Neighbor.set_dev_packed (Neighbor.dev_packed s') s /\
    firstn n (Neighbor.dev_packed s') = firstn n (Neighbor.dev_nbor s) /\
    skipn n (Neighbor.dev_packed s') = skipn n (Neighbor.dev_packed s) /\
    forall use_packing,
      Neighbor.copy_unpacked (Neighbor.packing s use_packing) inum maxj
      = Some (Neighbor.packing s' use_packing).
Proof.
  intros numel n Hrows Hnum Hsrc Hdst.
  assert (Ecopy : forall t,
            Neighbor.dev_nbor t = Neighbor.dev_nbor s ->
            Neighbor.dev_packed t = Neighbor.dev_packed s ->
            Neighbor.copy_unpacked t inum maxj
            = Some (Neighbor.set_dev_packed
                      (firstn n (Neighbor.dev_nbor s)
                       ++ skipn n (Neighbor.dev_packed s)) t)).
  { intros t En Ep. unfold Neighbor.copy_unpacked, Int.add, Int.mul.
    rewrite (IntFacts.checked_in (maxj + 2)) by exact Hrows. cbn [obind].
    fold numel. rewrite (IntFacts.checked_in numel) by exact Hnum.
    cbn [obind]. unfold Neighbor.ucl_copy. rewrite En, Ep.
    assert (G : (0 <=? numel)
                && (numel <=? Z.of_nat (List.length (Neighbor.dev_nbor s)))
                && (numel <=? Z.of_nat (List.length (Neighbor.dev_packed s)))
                = true).
    { rewrite !andb_true_iff, !Z.leb_le. lia. }
    rewrite G. reflexivity. }
  assert (Hlen : List.length (firstn n (Neighbor.dev_nbor s)) = n).
  { apply firstn_length_le. unfold n. lia. }
  eexists. split; [apply Ecopy; reflexivity|].
  split; [reflexivity|]. cbn [Neighbor.dev_packed Neighbor.set_dev_packed].
  split; [|split].
  - rewrite firstn_app, Hlen, Nat.sub_diag, firstn_O, app_nil_r.
    rewrite <- Hlen at 1. apply firstn_all.
  - rewrite skipn_app, Hlen, Nat.sub_diag.
    rewrite <- Hlen at 1. rewrite skipn_all. reflexivity.
  - intros use_packing. rewrite Ecopy by reflexivity. reflexivity.
Qed.

Lemma copy_unpacked_copies_witness :
  let s := Sample.manager 0 2 0 1 true (0, 0, 0)
             [10; 11; 1; 1; 11; 10; 0; 0] [5; 5; 5; 5; 5; 5; 5; 5] in
  exists s',
    Neighbor.copy_unpacked s 2 1 = Some s' /\
    s' = Neighbor.set_dev_packed (Neighbor.dev_packed s') s /\
    firstn 6 (Neighbor.dev_packed s') = firstn 6 (Neighbor.dev_nbor s) /\
    skipn 6 (Neighbor.dev_packed s') = skipn 6 (Neighbor.dev_packed s) /\
    forall use_packing,
      Neighbor.copy_unpacked (Neighbor.packing s use_packing) 2 1
      = Some (Neighbor.packing s' use_packing).
Proof.
  intros s.
  apply (copy_unpacked_copies s 2 1);
    unfold Neighbor.is_int, Int.min_int, Int.max_int; cbn; lia.
Defined.

(** ** Device memory accounting *)

(** C7.  For every manager, [gpu_bytes] is the double-precision sum of
    the three recorded byte totals, to which the staging term
    [2*IJ_SIZE*sizeof(int)] is added when the mode is 0 and only then.
    When the totals hold byte counts [g], [c], [l] (integers, with
    [g+c+l+1048576] below [2^53]) no sum rounds: the result is
    [g+c+l+1048576] in mode 0 and [g+c+l] otherwise, so it includes the
    1048576 staging bytes if and only if the mode is 0. *)
Theorem gpu_bytes_by_mode (s : Neighbor.t) :
  let total := Double.add (Double.add (Neighbor._gpu_bytes s)
                                      (Neighbor._c_bytes s))
                          (Neighbor._cell_bytes s) in
  Neighbor.gpu_bytes s
  = (if Neighbor._gpu_nbor s =? 0
     then Double.add total (Double.of_Z (2 * Neighbor.IJ_SIZE * 4))
     else total) /\
  forall g c l,
    0 <= g -> 0 <= c -> 0 <= l -> g + c + l + 1048576 < 2 ^ 53 ->
    Neighbor._gpu_bytes s = Double.of_Z g ->
    Neighbor._c_bytes s = Double.of_Z c ->
    Neighbor._cell_bytes s = Double.of_Z l ->
    Neighbor.gpu_bytes s
    = Double.of_Z (g + c + l
                   + (if Neighbor._gpu_nbor s =? 0 then 1048576 else 0)) /\
    (Neighbor.gpu_bytes s = Double.of_Z (g + c + l + 1048576)
     <-> Neighbor._gpu_nbor s = 0).
Proof.
  intros total. split; [reflexivity|].
  intros g c l Hg Hc Hl Hsum Eg Ec El.
  assert (Et : total = Double.of_Z (g + c + l)).
  { unfold total. rewrite Eg, Ec, El.
    rewrite !DoubleFacts.add_of_Z by (unfold Double.prec; lia). reflexivity. }
  assert (Eb : Neighbor.gpu_bytes s
               = Double.of_Z (g + c + l
                   + (if Neighbor._gpu_nbor s =? 0 then 1048576 else 0))).
  { unfold Neighbor.gpu_bytes. fold total. rewrite Et.
    destruct (Neighbor._gpu_nbor s =? 0).
    - unfold Neighbor.staging_bytes.
      change (2 * Neighbor.IJ_SIZE * Neighbor.sizeof_int) with 1048576.
      apply DoubleFacts.add_of_Z; unfold Double.prec; lia.
    - now rewrite Z.add_0_r. }
  split; [exact Eb|]. rewrite Eb.
  destruct (Z.eqb_spec (Neighbor._gpu_nbor s) 0) as [E|E].
  - split; [intros _; exact E | reflexivity].
  - split; [|contradiction]. intros H.
    apply DoubleFacts.of_Z_inj in H; unfold Double.prec; lia.
Qed.

Lemma gpu_bytes_by_mode_witness :
  let s0 := Sample.manager 0 10 0 4 false (240, 80, 16) [] [] in
  let s2 := Sample.manager 2 10 0 4 false (240, 80, 16) [] [] in
  Neighbor.gpu_bytes s0 = Double.of_Z (240 + 80 + 16 + 1048576) /\
  Neighbor.gpu_bytes s2 = Double.of_Z (240 + 80 + 16 + 0).
Proof.
  intros s0 s2. split.
  - apply (proj2 (gpu_bytes_by_mode s0) 240 80 16); try lia; reflexivity.
  - apply (proj2 (gpu_bytes_by_mode s2) 240 80 16); try lia; reflexivity.
Defined.

Example gpu_bytes_samples :
  Double.trunc (Neighbor.gpu_bytes
                  (Sample.manager 0 10 0 4 false (240, 80, 16) [] []))
  = Some 1048912 /\
  Double.trunc (Neighbor.gpu_bytes
                  (Sample.manager 1 10 0 4 false (240, 80, 16) [] []))
  = Some 336 /\
  Double.trunc (Neighbor.gpu_bytes
                  (Sample.manager 2 10 0 4 false (240, 80, 16) [] []))
  = Some 336.
Proof. vm_compute. repeat split. Qed.

(** ** The kernel registry *)

Module RegistryFacts.
Import NeighborShared.

Lemma bound_nil k : bound k = [] -> k = None.
Proof. destruct k as [[p f]|]; [discriminate | reflexivity]. Qed.

(** In the released state every member handle is unbound. *)
Lemma released_handles s :
  released s ->
  _compiled s = false /\ programs s = [] /\
  k_nbor s = None /\ k_cell_id s = None /\ k_cell_counts s = None /\
  k_build_nbor s = None /\ k_transpose s = None /\ k_special s = None.
Proof.
  intros (Hc & Hk & Hp). unfold kernels in Hk.
  repeat (apply app_eq_nil in Hk; destruct Hk as [?H Hk]).
  repeat split; auto using bound_nil.
Qed.

Lemma released_intro s :
  _compiled s = false -> programs s = [] ->
  k_nbor s = None -> k_cell_id s = None -> k_cell_counts s = None ->
  k_build_nbor s = None -> k_transpose s = None -> k_special s = None ->
  released s.
Proof.
  intros Hc Hp H1 H2 H3 H4 H5 H6. unfold released, kernels.
  rewrite H1, H2, H3, H4, H5, H6. auto.
Qed.

(** A call on a registry that is already compiled returns it. *)
Lemma compile_kernels_compiled opencl vendor s mode :
  _compiled s = true -> compile_kernels opencl vendor s mode = Returned s.
Proof. intros H. unfold compile_kernels. now rewrite H. Qed.

(** Mode 0 on a released registry: every member afterwards. *)
Lemma compile_host opencl vendor s :
  released s ->
  exists s',
    compile_kernels opencl vendor s 0 = Returned s' /\
    _compiled s' = true /\ _gpu_nbor s' = 0 /\
    nbor_program s' = Some 1%nat /\
    programs s' =
      [(1%nat, {| loaded := Some (neighbor_cpu,
          ("-cl-fast-relaxed-math -cl-mad-enable -D" ++ vendor)%string) |})] /\
    k_nbor s' = Some (1%nat, "kernel_unpack"%string) /\
    k_cell_id s' = None /\ k_cell_counts s' = None /\
    k_build_nbor s' = None /\ k_transpose s' = None /\ k_special s' = None.
Proof.
  intros R. apply released_handles in R.
  destruct R as (Hc & Hp & H1 & H2 & H3 & H4 & H5 & H6).
  unfold compile_kernels. rewrite Hc, Hp. cbn.
  eexists. split; [reflexivity|]. cbn. repeat split; assumption.
Qed.

(** A mode other than 0 on a released registry, when the build goes on:
    every member afterwards. *)
Lemma compile_device opencl vendor s mode :
  released s -> mode <> 0 -> opencl && (mode =? 1) = false ->
  exists s',
    compile_kernels opencl vendor s mode = Returned s' /\
    _compiled s' = true /\ _gpu_nbor s' = mode /\
    build_program s' = Some 1%nat /\
    programs s' =
      [(1%nat, {| loaded := if opencl then None else Some (neighbor_gpu,
          ("-cl-fast-relaxed-math -cl-mad-enable -D" ++ vendor)%string) |})] /\
    k_nbor s' = None /\
    k_cell_id s' =
      (if mode =? 1 then Some (1%nat, "calc_cell_id"%string) else None) /\
    k_cell_counts s' =
      (if mode =? 1 then Some (1%nat, "kernel_calc_cell_counts"%string)
       else None) /\
    k_build_nbor s' = Some (1%nat, "calc_neigh_list_cell"%string) /\
    k_transpose s' = Some (1%nat, "transpose"%string) /\
    k_special s' = Some (1%nat, "kernel_special"%string).
Proof.
  intros R Hm Hx. apply released_handles in R.
  destruct R as (Hc & Hp & H1 & H2 & H3 & H4 & H5 & H6).
  unfold compile_kernels. rewrite Hc, Hp.
  apply Z.eqb_neq in Hm. rewrite Hm. cbn [new_program map list_max fold_right].
  cbn [Nat.max]. rewrite Hx.
  eexists. split; [reflexivity|].
  cbn [_compiled _gpu_nbor k_nbor k_cell_id k_cell_counts k_build_nbor
       k_transpose k_special build_program programs].
  rewrite H1, H2, H3.
  destruct opencl; cbn; repeat split.
Qed.

(** The one case in which the call does not return. *)
Lemma compile_exits vendor s :
  _compiled s = false ->
  compile_kernels true vendor s 1
  = Exited 1 ("CANNOT CURRENTLY USE GPU NEIGHBORING WITH OPENCL" ++ newline)%string.
Proof.
  intros Hc. unfold compile_kernels. rewrite Hc. cbn [Z.eqb].
  destruct (new_program (programs s)) as [p h]. reflexivity.
Qed.

(** [clear] on a registry that is not compiled returns it. *)
Lemma clear_uncompiled s : _compiled s = false -> clear s = Some s.
Proof. intros H. unfold clear. now rewrite H. Qed.

(** [clear] after a compilation in a mode [>= 0] on a released registry. *)
Lemma clear_after_compile opencl vendor s0 mode s :
  released s0 -> 0 <= mode ->
  compile_kernels opencl vendor s0 mode = Returned s ->
  exists s', clear s = Some s' /\ released s'.
Proof.
  intros R Hm E.
  destruct (Z.eq_dec mode 0) as [->|Hne].
  - destruct (compile_host opencl vendor s0 R)
      as (s1 & E1 & Hc & Hg & Hnp & Hp & H1 & H2 & H3 & H4 & H5 & H6).
    rewrite E1 in E. injection E as <-.
    unfold clear. rewrite Hc, Hg, Hnp, Hp. cbn.
    eexists. split; [reflexivity|].
    apply released_intro; cbn; auto.
  - destruct (opencl && (mode =? 1)) eqn:Hx.
    + exfalso. apply andb_true_iff in Hx. destruct Hx as [-> Hx].
      apply Z.eqb_eq in Hx. subst mode.
      destruct R as (Hc & _).
      rewrite (compile_exits vendor s0 Hc) in E. discriminate.
    + destruct (compile_device opencl vendor s0 mode R Hne Hx)
        as (s1 & E1 & Hc & Hg & Hbp & Hp & H1 & H2 & H3 & H4 & H5 & H6).
      rewrite E1 in E. injection E as <-.
      unfold clear. rewrite Hc, Hg.
      assert (G : (mode >? 0) = true) by (apply Z.gtb_gt; lia).
      rewrite G, Hbp, Hp. cbn.
      eexists. split; [reflexivity|].
      apply released_intro; cbn; auto.
      * rewrite H2. now destruct (mode =? 1).
      * rewrite H3. now destruct (mode =? 1).
Qed.

(** A mode below 0 is outside the modes the header lists (0, 1, 2):
    [compile_kernels] takes its device branch ([gpu_nbor != 0]) and
    [clear] its host branch ([_gpu_nbor > 0] fails), which deletes the
    host program that was never created. *)
Example clear_negative_mode :
  exists s,
    compile_kernels false Sample.vendor fresh (-1) = Returned s /\
    clear s = None.
Proof. eexists. split; reflexivity. Qed.

End RegistryFacts.

(** ** Claims about the registry *)



Lemma fresh_released : NeighborShared.released NeighborShared.fresh.
Proof. repeat split. Defined.


(** C4.  When the registry compiles -- it is not compiled yet -- a
    request for mode 1 (neighboring on the device) in an OpenCL build
    ends the process: [exit(1)] after the message on [std::cerr].  The
    call does not return, with an error or otherwise. *)
Theorem compile_unsupported_exits (vendor : string) (s : NeighborShared.t) :
  NeighborShared._compiled s = false ->
  NeighborShared.compile_kernels true vendor s 1
  = NeighborShared.Exited 1
      ("CANNOT CURRENTLY USE GPU NEIGHBORING WITH OPENCL"
       ++ NeighborShared.newline)%string /\
  forall s', NeighborShared.compile_kernels true vendor s 1
             <> NeighborShared.Returned s'.
Proof.
  intros Hc.
  assert (E : NeighborShared.compile_kernels true vendor s 1
              = NeighborShared.Exited 1
                  ("CANNOT CURRENTLY USE GPU NEIGHBORING WITH OPENCL"
                   ++ NeighborShared.newline)%string).
  { unfold NeighborShared.compile_kernels. rewrite Hc. cbn [Z.eqb].
    destruct (NeighborShared.new_program (NeighborShared.programs s))
      as [p h].
    reflexivity. }
  split; [exact E|]. intros s'. rewrite E. discriminate.
Qed.

Lemma compile_unsupported_exits_witness :
  NeighborShared._compiled NeighborShared.fresh = false /\
  NeighborShared.compile_kernels true Sample.vendor NeighborShared.fresh 1
  = NeighborShared.Exited 1
      ("CANNOT CURRENTLY USE GPU NEIGHBORING WITH OPENCL"
       ++ NeighborShared.newline)%string.
Proof.
  split; [reflexivity|].
  exact (proj1 (compile_unsupported_exits Sample.vendor NeighborShared.fresh
                  eq_refl)).
Defined.

(** C5.  Once the registry is compiled -- the flag is set, or the
    registry is what an earlier call returned -- a call of
    [compile_kernels] returns the registry as it is, for every mode and
    in either build: no member changes and no program is created. *)
Theorem compile_kernels_idempotent (opencl : bool) (vendor : string)
  (s : NeighborShared.t) (mode : Z) :
  (NeighborShared._compiled s = true \/
   exists s0 mode0,
     NeighborShared.compile_kernels opencl vendor s0 mode0
     = NeighborShared.Returned s) ->
  NeighborShared.compile_kernels opencl vendor s mode
  = NeighborShared.Returned s.
Proof.
  intros H. apply RegistryFacts.compile_kernels_compiled.
  destruct H as [H|(s0 & mode0 & E)]; [exact H|].
  revert E. unfold NeighborShared.compile_kernels.
  destruct (NeighborShared._compiled s0) eqn:Hc; [now intros [= <-]|].
  destruct (mode0 =? 0).
  - destruct (NeighborShared.new_program _). now intros [= <-].
  - destruct (NeighborShared.new_program _).
    destruct (opencl && (mode0 =? 1)); [discriminate | now intros [= <-]].
Qed.

Lemma compile_kernels_idempotent_witness :
  exists s,
    NeighborShared.compile_kernels true Sample.vendor NeighborShared.fresh 0
    = NeighborShared.Returned s /\
    NeighborShared.compile_kernels true Sample.vendor s 1
    = NeighborShared.Returned s /\
    NeighborShared.compile_kernels true Sample.vendor s 2
    = NeighborShared.Returned s.
Proof.
  eexists. split; [reflexivity|]. split.
  - apply compile_kernels_idempotent. right.
    exists NeighborShared.fresh, 0. reflexivity.
  - apply compile_kernels_idempotent. left. reflexivity.
Defined.

(** C6.  After a compilation (in a mode [>= 0]) on a released registry,
    one [clear] is defined and leaves the registry released: marked
    uncompiled, no kernel handle bound, no program alive.  A further
    [clear] returns the released registry unchanged, as does [clear] on a
    registry that was never compiled. *)
Theorem clear_idempotent (opencl : bool) (vendor : string)
  (s0 s : NeighborShared.t) (mode : Z) :
  NeighborShared.released s0 -> 0 <= mode ->
  NeighborShared.compile_kernels opencl vendor s0 mode
  = NeighborShared.Returned s ->
  NeighborShared.clear s0 = Some s0 /\
  exists s',
    NeighborShared.clear s = Some s' /\
    NeighborShared.released s' /\
    NeighborShared.clear s' = Some s'.
Proof.
  intros R Hm E. split.
  - apply RegistryFacts.clear_uncompiled. apply R.
  - destruct (RegistryFacts.clear_after_compile opencl vendor s0 mode s R Hm E)
      as (s' & Ec & R').
    exists s'. split; [exact Ec|]. split; [exact R'|].
    apply RegistryFacts.clear_uncompiled. apply R'.
Qed.

Lemma clear_idempotent_witness :
  exists s s',
    NeighborShared.compile_kernels false Sample.vendor NeighborShared.fresh 1
    = NeighborShared.Returned s /\
    NeighborShared.programs s <> [] /\
    NeighborShared.clear s = Some s' /\
    NeighborShared.released s' /\
    NeighborShared.clear s' = Some s'.
Proof.
  eexists.
  destruct (clear_idempotent false Sample.vendor NeighborShared.fresh _ 1
              fresh_released ltac:(lia) eq_refl) as (_ & s' & Ec & R' & Ec').
  exists s'. split; [reflexivity|]. split; [discriminate|].
  split; [exact Ec|]. split; [exact R' | exact Ec'].
Defined.

(** * Further properties of the code *)

(** ** Resizing, on every [int] request *)

Module ResizeMore.
Import Neighbor.

(** Requests whose growth leaves the range of [int]. *)
Lemma grow_None n :
  is_int n -> (grow n = None <-> n < -1952257862 \/ 1952257861 < n).
Proof.
  intros Hn. rewrite DoubleFacts.grow_quot by exact Hn.
  unfold Int.checked, Int.in_range, Int.min_int, Int.max_int.
  change (- 2 ^ 31) with (-2147483648). change (2 ^ 31 - 1) with 2147483647.
  assert (Hq : exists q, Z.quot (11 * n) 10 = q /\
             ((0 <= n /\ 10 * q <= 11 * n < 10 * q + 10) \/
              (n < 0 /\ 10 * q - 10 < 11 * n <= 10 * q))).
  { destruct (Z.le_gt_cases 0 n).
    - exists (11 * n / 10). split; [apply Z.quot_div_nonneg; lia|]. left.
      pose proof (Z.div_mod (11 * n) 10).
      pose proof (Z.mod_pos_bound (11 * n) 10). lia.
    - exists (- (11 * (- n) / 10)). split.
      + replace (11 * n) with (- (11 * (- n))) by ring.
        rewrite Z.quot_opp_l, Z.quot_div_nonneg by lia. reflexivity.
      + right. pose proof (Z.div_mod (11 * (- n)) 10).
        pose proof (Z.mod_pos_bound (11 * (- n)) 10). lia. }
  destruct Hq as (q & -> & Hq).
  destruct ((-2147483648 <=? q) && (q <=? 2147483647)) eqn:E.
  - apply andb_true_iff in E. rewrite !Z.leb_le in E.
    split; [discriminate | lia].
  - apply andb_false_iff in E. rewrite !Z.leb_gt in E.
    split; [lia | reflexivity].
Qed.

Lemma grow_defined n :
  is_int n -> -1952257862 <= n <= 1952257861 ->
  grow n = Some (Z.quot (11 * n) 10).
Proof.
  intros Hn Hr. destruct (grow n) as [r|] eqn:E.
  - rewrite DoubleFacts.grow_quot in E by exact Hn.
    apply IntFacts.checked_Some in E. destruct E as [-> _]. reflexivity.
  - apply grow_None in E; [lia | exact Hn].
Qed.

(** Eleven tenths rounded down is the request plus a tenth of it. *)
Lemma eleven_tenths n : 11 * n / 10 = n + n / 10.
Proof.
  replace (11 * n) with (n + n * 10) by ring.
  rewrite Z.div_add by lia. ring.
Qed.

Lemma grow_cases n :
  is_int n ->
  (grow n = None /\ grow_overflows n) \/
  (exists r, grow n = Some r /\ ~ grow_overflows n).
Proof.
  intros Hn. pose proof (grow_None n Hn) as G. fold (grow_overflows n) in G.
  destruct (grow n) as [r|].
  - right. exists r. split; [reflexivity|]. intros H. apply G in H. discriminate.
  - left. split; [reflexivity | now apply G].
Qed.

(** The guarded growth of [_max_nbors] is undefined exactly when the
    request exceeds the capacity and does not fit. *)
Lemma grow_nbors_None s max_nbor :
  is_int max_nbor ->
  ((if max_nbor >? _max_nbors s
    then n <- grow max_nbor ;; Some (set_max_nbors n s)
    else Some s) = None
   <-> max_nbor > _max_nbors s /\ grow_overflows max_nbor).
Proof.
  intros Hm. destruct (Z.gtb_spec max_nbor (_max_nbors s)) as [Hgt|Hle].
  - destruct (grow_cases max_nbor Hm) as [[-> Ho]|(r & -> & Ho)]; cbn [obind].
    + split; [intros _; split; [lia | exact Ho] | reflexivity].
    + split; [discriminate | intros [_ H]; contradiction].
  - split; [discriminate | intros [H _]; lia].
Qed.

End ResizeMore.

(** X1.  For [int] arguments, a call of [resize] runs into undefined
    behaviour exactly when it has to reallocate and a value it converts
    back to [int] does not fit: the atom request always, the neighbor
    request when it exceeds its capacity.  The requests that do not fit
    ([grow_overflows]) are those below -1952257862 or above 1952257861.
    The overload with
    [host_inum] converts the host request as well. *)
Theorem resize_undefined_iff
  (alloc : Neighbor.t -> bool -> Neighbor.t * bool)
  (s : Neighbor.t) (inum host_inum max_nbor : Z) (success : bool) :
  Neighbor.is_int inum -> Neighbor.is_int host_inum ->
  Neighbor.is_int max_nbor ->
  (Neighbor.resize alloc s inum max_nbor success = None <->
   (inum > Neighbor._max_atoms s \/ max_nbor > Neighbor._max_nbors s) /\
   (grow_overflows inum \/ (max_nbor > Neighbor._max_nbors s /\ grow_overflows max_nbor))) /\
  (Neighbor.resize_host alloc s inum host_inum max_nbor success = None <->
   (inum > Neighbor._max_atoms s \/ max_nbor > Neighbor._max_nbors s
    \/ host_inum > Neighbor._max_host s) /\
   (grow_overflows inum \/ grow_overflows host_inum
    \/ (max_nbor > Neighbor._max_nbors s /\ grow_overflows max_nbor))).
Proof.
  intros Hi Hh Hm. split.
  - unfold Neighbor.resize.
    destruct ((inum >? Neighbor._max_atoms s)
              || (max_nbor >? Neighbor._max_nbors s)) eqn:G.
    + apply orb_true_iff in G. rewrite !Z.gtb_gt in G.
      destruct (ResizeMore.grow_cases inum Hi) as [[-> Ho]|(a & -> & Ho)];
        cbn [obind].
      * split; [intros _; split; [lia | now left] | reflexivity].
      * pose proof (ResizeMore.grow_nbors_None
                      (Neighbor.set_max_atoms a s) max_nbor Hm) as Gn.
        change (Neighbor._max_nbors (Neighbor.set_max_atoms a s))
          with (Neighbor._max_nbors s) in Gn.
        change (Neighbor._max_nbors (Neighbor.set_max_atoms a s))
          with (Neighbor._max_nbors s).
        destruct (if max_nbor >? Neighbor._max_nbors s then _ else _)
          as [s2|]; cbn [obind].
        -- split; [discriminate|]. intros [_ [H|H]]; [contradiction|].
           apply Gn in H. discriminate.
        -- split; [|reflexivity]. intros _. split; [lia|]. right.
           now apply Gn.
    + apply orb_false_iff in G. rewrite !Z.gtb_ltb, !Z.ltb_ge in G.
      split; [discriminate | intros [[H|H] _]; lia].
  - unfold Neighbor.resize_host.
    destruct ((inum >? Neighbor._max_atoms s)
              || (max_nbor >? Neighbor._max_nbors s)
              || (host_inum >? Neighbor._max_host s)) eqn:G.
    + rewrite !orb_true_iff, !Z.gtb_gt in G.
      destruct (ResizeMore.grow_cases inum Hi) as [[-> Ho]|(a & -> & Ho)];
        cbn [obind].
      * split; [intros _; split; [lia | now left] | reflexivity].
      * destruct (ResizeMore.grow_cases host_inum Hh)
          as [[-> Ho']|(h & -> & Ho')]; cbn [obind].
        -- split; [intros _; split; [lia | right; now left] | reflexivity].
        -- pose proof (ResizeMore.grow_nbors_None
                         (Neighbor.set_max_host h (Neighbor.set_max_atoms a s))
                         max_nbor Hm) as Gn.
           change (Neighbor._max_nbors
                     (Neighbor.set_max_host h (Neighbor.set_max_atoms a s)))
             with (Neighbor._max_nbors s) in Gn.
           change (Neighbor._max_nbors
                     (Neighbor.set_max_host h (Neighbor.set_max_atoms a s)))
             with (Neighbor._max_nbors s).
           destruct (if max_nbor >? Neighbor._max_nbors s then _ else _)
             as [s3|]; cbn [obind].
           ++ split; [discriminate|].
              intros [_ [H|[H|H]]]; try contradiction.
              apply Gn in H. discriminate.
           ++ split; [|reflexivity]. intros _. split; [lia|]. right. right.
              now apply Gn.
    + rewrite !orb_false_iff, !Z.gtb_ltb, !Z.ltb_ge in G.
      split; [discriminate | intros [[H|[H|H]] _]; lia].
Qed.

Lemma resize_undefined_iff_witness :
  let s := Sample.manager 0 1000 5 10 false (0, 0, 0) [] [] in
  Neighbor.resize Sample.alloc_keep s 1952257862 3 true = None /\
  Neighbor.resize Sample.alloc_keep s 1952257861 3 true <> None /\
  Neighbor.resize_host Sample.alloc_keep s 7 1952257862 3 true = None.
Proof.
  intros s.
  assert (I1 : Neighbor.is_int 1952257862)
    by (unfold Neighbor.is_int, Int.min_int, Int.max_int; lia).
  assert (I2 : Neighbor.is_int 1952257861)
    by (unfold Neighbor.is_int, Int.min_int, Int.max_int; lia).
  assert (I3 : Neighbor.is_int 3)
    by (unfold Neighbor.is_int, Int.min_int, Int.max_int; lia).
  assert (I7 : Neighbor.is_int 7)
    by (unfold Neighbor.is_int, Int.min_int, Int.max_int; lia).
  split; [|split].
  - apply (proj1 (resize_undefined_iff Sample.alloc_keep s
                    1952257862 0 3 true I1 ltac:(unfold Neighbor.is_int,
                      Int.min_int, Int.max_int; lia) I3)).
    unfold grow_overflows. cbn. lia.
  - intros H.
    apply (proj1 (resize_undefined_iff Sample.alloc_keep s
                    1952257861 0 3 true I2 ltac:(unfold Neighbor.is_int,
                      Int.min_int, Int.max_int; lia) I3)) in H.
    revert H. unfold grow_overflows. cbn. lia.
  - apply (proj2 (resize_undefined_iff Sample.alloc_keep s
                    7 1952257862 3 true I7 I1 I3)).
    unfold grow_overflows. cbn. lia.
Defined.

(** X2.  A call that reallocates, whichever request triggered it, gives
    each dimension it sets a headroom of one tenth of the request,
    rounded down.  [_max_atoms] (and [_max_host] in the overload that has
    it) is always set, to [n + n/10]; [_max_nbors] is set, to [m + m/10],
    only when its request exceeded it, and is kept otherwise.  Requests
    below 10 get no headroom at all; from 10 on the capacity ends
    strictly above the request. *)
Theorem resize_headroom
  (alloc : Neighbor.t -> bool -> Neighbor.t * bool)
  (s : Neighbor.t) (inum host_inum max_nbor : Z) (success : bool) :
  Neighbor.keeps_capacity alloc ->
  Neighbor.request inum -> Neighbor.request host_inum ->
  Neighbor.request max_nbor ->
  (inum > Neighbor._max_atoms s \/ max_nbor > Neighbor._max_nbors s ->
   exists s' success',
     Neighbor.resize alloc s inum max_nbor success = Some (s', success') /\
     Neighbor._max_atoms s' = inum + inum / 10 /\
     Neighbor._max_host s' = Neighbor._max_host s /\
     Neighbor._max_nbors s'
     = (if max_nbor >? Neighbor._max_nbors s
        then max_nbor + max_nbor / 10 else Neighbor._max_nbors s)) /\
  (inum > Neighbor._max_atoms s \/ max_nbor > Neighbor._max_nbors s
   \/ host_inum > Neighbor._max_host s ->
   exists s' success',
     Neighbor.resize_host alloc s inum host_inum max_nbor success
     = Some (s', success') /\
     Neighbor._max_atoms s' = inum + inum / 10 /\
     Neighbor._max_host s' = host_inum + host_inum / 10 /\
     Neighbor._max_nbors s'
     = (if max_nbor >? Neighbor._max_nbors s
        then max_nbor + max_nbor / 10 else Neighbor._max_nbors s)) /\
  (forall n, 0 <= n ->
     (n < 10 -> n + n / 10 = n) /\ (10 <= n -> n < n + n / 10)).
Proof.
  intros frame Hi Hh Hm. split; [|split].
  - intros Hex.
    destruct (ResizeFacts.resize_grows alloc frame s inum max_nbor success
                Hi Hm Hex) as (s' & b' & E & Ea & Eh & En).
    rewrite !ResizeMore.eleven_tenths in *.
    exists s', b'. auto.
  - intros Hex.
    destruct (ResizeFacts.resize_host_grows alloc frame s inum host_inum
                max_nbor success Hi Hh Hm Hex) as (s' & b' & E & Ea & Eh & En).
    rewrite !ResizeMore.eleven_tenths in *.
    exists s', b'. auto.
  - intros n Hn. split.
    + intros Hlt. rewrite Z.div_small by lia. lia.
    + intros Hge.
      assert (1 <= n / 10) by (apply Z.div_le_lower_bound; lia). lia.
Qed.

Lemma resize_headroom_witness :
  let s := Sample.manager 0 4 2 10 false (0, 0, 0) [] [] in
  (exists s' success',
     Neighbor.resize Sample.alloc_keep s 25 3 true = Some (s', success') /\
     Neighbor._max_atoms s' = 27 /\ Neighbor._max_host s' = 2 /\
     Neighbor._max_nbors s' = 10) /\
  (exists s' success',
     Neighbor.resize Sample.alloc_keep s 3 25 true = Some (s', success') /\
     Neighbor._max_atoms s' = 3 /\ Neighbor._max_host s' = 2 /\
     Neighbor._max_nbors s' = 27) /\
  (exists s' success',
     Neighbor.resize_host Sample.alloc_keep s 4 9 10 true
     = Some (s', success') /\
     Neighbor._max_atoms s' = 4 /\ Neighbor._max_host s' = 9 /\
     Neighbor._max_nbors s' = 10).
Proof.
  intros s.
  assert (R : forall n, 0 <= n <= 25 -> Neighbor.request n)
    by (intros n Hn; unfold Neighbor.request, max_request; lia).
  split; [|split].
  - apply (proj1 (resize_headroom Sample.alloc_keep s 25 0 3 true
                    alloc_keep_frame (R 25 ltac:(lia)) (R 0 ltac:(lia))
                    (R 3 ltac:(lia)))).
    cbn. lia.
  - apply (proj1 (resize_headroom Sample.alloc_keep s 3 0 25 true
                    alloc_keep_frame (R 3 ltac:(lia)) (R 0 ltac:(lia))
                    (R 25 ltac:(lia)))).
    cbn. lia.
  - apply (proj1 (proj2 (resize_headroom Sample.alloc_keep s 4 9 10 true
                    alloc_keep_frame (R 4 ltac:(lia)) (R 9 ltac:(lia))
                    (R 10 ltac:(lia))))).
    cbn. lia.
Defined.

(** X3.  After a call of either overload that is defined, the requests
    (non-negative [int]s) fit the capacities it leaves; so the same call
    made again finds nothing to do: it returns the manager unchanged and
    does not touch the flag it is given. *)
Theorem resize_settles
  (alloc : Neighbor.t -> bool -> Neighbor.t * bool)
  (c : Neighbor.call) (s s' : Neighbor.t) (success success' : bool) :
  Neighbor.keeps_capacity alloc ->
  Neighbor.call_int c ->
  match c with
  | Neighbor.Resize inum max_nbor => 0 <= inum /\ 0 <= max_nbor
  | Neighbor.ResizeHost inum host_inum max_nbor =>
      0 <= inum /\ 0 <= host_inum /\ 0 <= max_nbor
  end ->
  Neighbor.do_call alloc c (s, success) = Some (s', success') ->
  match c with
  | Neighbor.Resize inum max_nbor =>
      inum <= Neighbor._max_atoms s' /\ max_nbor <= Neighbor._max_nbors s'
  | Neighbor.ResizeHost inum host_inum max_nbor =>
      inum <= Neighbor._max_atoms s' /\ host_inum <= Neighbor._max_host s' /\
      max_nbor <= Neighbor._max_nbors s'
  end /\
  forall again, Neighbor.do_call alloc c (s', again) = Some (s', again).
Proof.
  intros frame Hint Hpos Hcall.
  assert (Hnb : forall t t' m,
            Neighbor.is_int m -> 0 <= m ->
            (if m >? Neighbor._max_nbors t
             then n <- grow m ;; Some (Neighbor.set_max_nbors n t)
             else Some t) = Some t' ->
            m <= Neighbor._max_nbors t' /\
            Neighbor._max_atoms t' = Neighbor._max_atoms t /\
            Neighbor._max_host t' = Neighbor._max_host t).
  { intros t t' m [_ Hm] H0.
    destruct (Z.gtb_spec m (Neighbor._max_nbors t)) as [Hgt|Hle].
    - destruct (grow m) as [n|] eqn:E; [|discriminate].
      intros [= <-]. apply grow_Some in E; [|lia]. cbn. lia.
    - intros [= <-]. lia. }
  assert (Hfit :
    match c with
    | Neighbor.Resize inum max_nbor =>
        inum <= Neighbor._max_atoms s' /\ max_nbor <= Neighbor._max_nbors s'
    | Neighbor.ResizeHost inum host_inum max_nbor =>
        inum <= Neighbor._max_atoms s' /\ host_inum <= Neighbor._max_host s' /\
        max_nbor <= Neighbor._max_nbors s'
    end).
  { destruct c as [inum max_nbor|inum host_inum max_nbor];
      cbn [Neighbor.do_call Neighbor.call_int fst snd] in *.
    - destruct Hint as [Hi Hm]. destruct Hpos as [Hi0 Hm0].
      revert Hcall. unfold Neighbor.resize.
      destruct (_ || _) eqn:G.
      + destruct (grow inum) as [a|] eqn:Ea; [|discriminate]. cbn [obind].
        apply grow_Some in Ea; [|destruct Hi; lia].
        destruct (if max_nbor >? _ then _ else _) as [s2|] eqn:E2;
          [|discriminate].
        cbn [obind]. intros E. injection E as E.
        apply Hnb in E2; [|assumption..]. cbn in E2.
        assert (Hs : s' = fst (alloc s2 success)) by (rewrite E; reflexivity).
        rewrite Hs, ResizeFacts.alloc_max_atoms, ResizeFacts.alloc_max_nbors
          by exact frame. lia.
      + intros [= <- <-]. apply orb_false_iff in G.
        rewrite !Z.gtb_ltb, !Z.ltb_ge in G. exact G.
    - destruct Hint as (Hi & Hh & Hm). destruct Hpos as (Hi0 & Hh0 & Hm0).
      revert Hcall. unfold Neighbor.resize_host.
      destruct (_ || _) eqn:G.
      + destruct (grow inum) as [a|] eqn:Ea; [|discriminate]. cbn [obind].
        apply grow_Some in Ea; [|destruct Hi; lia].
        destruct (grow host_inum) as [h|] eqn:Eh; [|discriminate]. cbn [obind].
        apply grow_Some in Eh; [|destruct Hh; lia].
        destruct (if max_nbor >? _ then _ else _) as [s3|] eqn:E3;
          [|discriminate].
        cbn [obind]. intros E. injection E as E.
        apply Hnb in E3; [|assumption..]. cbn in E3.
        assert (Hs : s' = fst (alloc s3 success)) by (rewrite E; reflexivity).
        rewrite Hs, ResizeFacts.alloc_max_atoms, ResizeFacts.alloc_max_host,
          ResizeFacts.alloc_max_nbors by exact frame. lia.
      + intros [= <- <-]. rewrite !orb_false_iff in G.
        rewrite !Z.gtb_ltb, !Z.ltb_ge in G. lia. }
  split; [exact Hfit|]. intros again.
  destruct c as [inum max_nbor|inum host_inum max_nbor];
    cbn [Neighbor.do_call fst snd].
  - unfold Neighbor.resize.
    assert (G : (inum >? Neighbor._max_atoms s')
                || (max_nbor >? Neighbor._max_nbors s') = false).
    { apply orb_false_iff. rewrite !Z.gtb_ltb, !Z.ltb_ge. exact Hfit. }
    now rewrite G.
  - unfold Neighbor.resize_host.
    assert (G : (inum >? Neighbor._max_atoms s')
                || (max_nbor >? Neighbor._max_nbors s')
                || (host_inum >? Neighbor._max_host s') = false).
    { rewrite !orb_false_iff, !Z.gtb_ltb, !Z.ltb_ge. lia. }
    now rewrite G.
Qed.

Lemma resize_settles_witness :
  let s := Sample.manager 0 4 0 10 false (0, 0, 0) [] [] in
  exists s',
    Neighbor.do_call Sample.alloc_keep (Neighbor.ResizeHost 9 3 25) (s, true)
    = Some (s', true) /\
    (9 <= Neighbor._max_atoms s' /\ 3 <= Neighbor._max_host s' /\
     25 <= Neighbor._max_nbors s') /\
    forall again,
      Neighbor.do_call Sample.alloc_keep (Neighbor.ResizeHost 9 3 25)
        (s', again) = Some (s', again).
Proof.
  intros s. eexists. split; [vm_compute; reflexivity|].
  apply (resize_settles Sample.alloc_keep (Neighbor.ResizeHost 9 3 25)
           s _ true true alloc_keep_frame).
  - unfold Neighbor.call_int, Neighbor.is_int, Int.min_int, Int.max_int. lia.
  - lia.
  - vm_compute. reflexivity.
Defined.

(** ** The scan: undefined reads, negative counts, order, prefixes *)

Module ScanMore.
Import Neighbor.

(** A scan that is defined read every entry it visited. *)
Lemma max_nbor_from_valid numj ilist todo : forall i mn r,
  max_nbor_from todo i mn numj ilist = Some r ->
  forall x, i <= x < i + Z.of_nat todo -> exists c, entry numj ilist x c.
Proof.
  induction todo as [|todo IH]; intros i mn r E x Hx; [lia|].
  cbn [max_nbor_from] in E.
  destruct (read ilist i) as [j|] eqn:Ej; [|discriminate]. cbn [obind] in E.
  destruct (read numj j) as [c|] eqn:Ec; [|discriminate]. cbn [obind] in E.
  destruct (Z.eq_dec x i) as [->|Hne].
  - exists c, j. auto.
  - apply (IH _ _ _ E). lia.
Qed.

(** The loop over [a + b] iterations is the loop over [a] followed by
    the loop over [b] from where the first stopped. *)
Lemma max_nbor_from_split numj ilist a b : forall i mn,
  max_nbor_from (a + b) i mn numj ilist
  = (m <- max_nbor_from a i mn numj ilist ;;
     max_nbor_from b (i + Z.of_nat a) m numj ilist).
Proof.
  induction a as [|a IH]; intros i mn.
  - cbn [max_nbor_from Nat.add obind]. now rewrite Z.add_0_r.
  - cbn [max_nbor_from Nat.add].
    destruct (read ilist i) as [j|]; [|reflexivity]. cbn [obind].
    destruct (read numj j) as [c|]; [|reflexivity]. cbn [obind].
    rewrite IH. replace (i + 1 + Z.of_nat a) with (i + Z.of_nat (S a)) by lia.
    reflexivity.
Qed.

Lemma max_nbor_from_ge numj ilist todo : forall i mn r,
  max_nbor_from todo i mn numj ilist = Some r -> mn <= r.
Proof.
  induction todo as [|todo IH]; intros i mn r E; cbn [max_nbor_from] in E.
  - injection E as <-. lia.
  - destruct (read ilist i) as [j|]; [|discriminate]. cbn [obind] in E.
    destruct (read numj j) as [c|]; [|discriminate]. cbn [obind] in E.
    apply IH in E. lia.
Qed.

Lemma read_app_r pre l i :
  0 <= i -> read (pre ++ l) (Z.of_nat (List.length pre) + i) = read l i.
Proof.
  intros Hi. unfold read.
  assert (G : (0 <=? Z.of_nat (List.length pre) + i) = true)
    by (apply Z.leb_le; lia).
  assert (G' : (0 <=? i) = true) by (apply Z.leb_le; lia).
  rewrite G, G'.
  replace (Z.to_nat (Z.of_nat (List.length pre) + i))
    with (List.length pre + Z.to_nat i)%nat by lia.
  rewrite nth_error_app2 by lia. f_equal. lia.
Qed.

(** The loop over a whole index list is the fold of [Scan.visit]. *)
Lemma max_nbor_from_visits numj l : forall pre mn,
  max_nbor_from (List.length l) (Z.of_nat (List.length pre)) mn numj (pre ++ l)
  = Scan.visits numj l mn.
Proof.
  unfold Scan.visits.
  induction l as [|j l IH]; intros pre mn; [reflexivity|].
  cbn [List.length max_nbor_from fold_left].
  replace (read (pre ++ j :: l) (Z.of_nat (List.length pre))) with (Some j).
  2:{ rewrite <- (Z.add_0_r (Z.of_nat (List.length pre))).
      rewrite read_app_r by lia. reflexivity. }
  cbn [obind]. unfold Scan.visit at 2. cbn [obind].
  destruct (read numj j) as [c|]; cbn [obind].
  - specialize (IH (pre ++ [j]) (Z.max mn c)).
    rewrite <- app_assoc in IH. cbn [app] in IH.
    rewrite length_app in IH. cbn [List.length] in IH.
    replace (Z.of_nat (List.length pre + 1)) with (Z.of_nat (List.length pre) + 1)
      in IH by lia.
    exact IH.
  - clear IH. induction l as [|j' l IHl]; [reflexivity | exact IHl].
Qed.

Lemma max_nbor_loop_visits numj l :
  max_nbor_loop (Z.of_nat (List.length l)) numj l = Scan.visits numj l 0.
Proof.
  unfold max_nbor_loop. rewrite Nat2Z.id.
  exact (max_nbor_from_visits numj l [] 0).
Qed.

Lemma visit_swap numj acc a b :
  Scan.visit numj (Scan.visit numj acc a) b
  = Scan.visit numj (Scan.visit numj acc b) a.
Proof.
  unfold Scan.visit. destruct acc as [mn|]; [|reflexivity]. cbn [obind].
  destruct (read numj a) as [ca|], (read numj b) as [cb|]; cbn [obind];
    try reflexivity.
  f_equal. lia.
Qed.

Lemma fold_visit_perm numj l l' :
  Permutation l l' ->
  forall acc, fold_left (Scan.visit numj) l acc
              = fold_left (Scan.visit numj) l' acc.
Proof.
  induction 1 as [|x l l' _ IH|x y l|l l' l'' _ IH1 _ IH2]; intros acc;
    cbn [fold_left].
  - reflexivity.
  - apply IH.
  - now rewrite visit_swap.
  - now rewrite IH1.
Qed.

(** Starting the fold from a larger running maximum. *)
Lemma visits_from numj l : forall mn,
  0 <= mn ->
  Scan.visits numj l mn = (r <- Scan.visits numj l 0 ;; Some (Z.max mn r)).
Proof.
  unfold Scan.visits.
  assert (Hnone : forall l, fold_left (Scan.visit numj) l None = None).
  { intros k. induction k as [|j k IHk]; [reflexivity | exact IHk]. }
  assert (Hgen : forall l a b,
            fold_left (Scan.visit numj) l (Some (Z.max a b))
            = (r <- fold_left (Scan.visit numj) l (Some b) ;;
               Some (Z.max a r))).
  { intros k. induction k as [|j k IHk]; intros a b; cbn [fold_left].
    - reflexivity.
    - unfold Scan.visit at 2 4. cbn [obind].
      destruct (read numj j) as [c|]; cbn [obind].
      + rewrite <- IHk. f_equal. f_equal. lia.
      + now rewrite Hnone. }
  intros mn Hmn. rewrite <- Hgen. f_equal. f_equal. lia.
Qed.

End ScanMore.

(** X4.  Whenever every index the loop visits is valid, [max_nbor_loop]
    returns a value that is never negative, bounds every visited count,
    and is 0 or one of the counts.  With counts that are all negative or
    zero it therefore returns 0; when all of them are negative that is
    not their maximum. *)
Theorem max_nbor_loop_never_negative (inum : Z) (numj ilist : list Z) :
  (forall i, 0 <= i < inum -> exists c, Neighbor.entry numj ilist i c) ->
  exists mn,
    Neighbor.max_nbor_loop inum numj ilist = Some mn /\
    0 <= mn /\
    (forall i c, 0 <= i < inum -> Neighbor.entry numj ilist i c -> c <= mn) /\
    (mn = 0 \/ exists i, 0 <= i < inum /\ Neighbor.entry numj ilist i mn) /\
    ((forall i c, 0 <= i < inum -> Neighbor.entry numj ilist i c -> c <= 0) ->
     mn = 0).
Proof.
  intros Hval. unfold Neighbor.max_nbor_loop.
  assert (Hrange : forall x, 0 <= x < 0 + Z.of_nat (Z.to_nat inum) <->
                             0 <= x < inum) by (intros; lia).
  destruct (ScanFacts.max_nbor_from_spec numj ilist (Z.to_nat inum) 0 0)
    as (r & Er & Hge & Hub & Hat).
  { intros x Hx. apply Hval. now apply Hrange. }
  exists r. split; [exact Er|]. split; [exact Hge|]. split; [|split].
  - intros i c Hi. apply Hub. now apply Hrange.
  - destruct Hat as [->|(x & Hx & Hc)]; [now left|].
    right. exists x. split; [now apply Hrange | exact Hc].
  - intros Hneg. destruct Hat as [->|(x & Hx & Hc)]; [reflexivity|].
    assert (r <= 0) by (apply (Hneg x r); [now apply Hrange | exact Hc]).
    lia.
Qed.

Lemma max_nbor_loop_never_negative_witness :
  let numj := [-3; -1; -7] in
  let ilist := [2; 0] in
  exists mn,
    Neighbor.max_nbor_loop 2 numj ilist = Some mn /\
    0 <= mn /\
    (forall i c, 0 <= i < 2 -> Neighbor.entry numj ilist i c -> c <= mn) /\
    (mn = 0 \/ exists i, 0 <= i < 2 /\ Neighbor.entry numj ilist i mn) /\
    ((forall i c, 0 <= i < 2 -> Neighbor.entry numj ilist i c -> c <= 0) ->
     mn = 0).
Proof.
  intros numj ilist.
  apply (max_nbor_loop_never_negative 2 numj ilist).
  intros i Hi. assert (Hc : i = 0 \/ i = 1) by lia.
  destruct Hc as [-> | ->].
  - exists (-7), 2. split; reflexivity.
  - exists (-3), 0. split; reflexivity.
Defined.

(** X5.  [max_nbor_loop] is defined exactly when every [ilist[i]], for
    [0 <= i < inum], is inside [ilist] and indexes inside [numj]; one
    index out of bounds anywhere in the range makes the whole call
    undefined.  For [inum <= 0] no array is read. *)
Theorem max_nbor_loop_defined_iff (inum : Z) (numj ilist : list Z) :
  (Neighbor.max_nbor_loop inum numj ilist <> None <->
   forall i, 0 <= i < inum -> exists c, Neighbor.entry numj ilist i c) /\
  (inum <= 0 -> Neighbor.max_nbor_loop inum numj ilist = Some 0).
Proof.
  split; [split|].
  - intros Hdef i Hi. unfold Neighbor.max_nbor_loop in Hdef.
    destruct (Neighbor.max_nbor_from (Z.to_nat inum) 0 0 numj ilist)
      as [r|] eqn:E; [|contradiction].
    apply (ScanMore.max_nbor_from_valid _ _ _ _ _ _ E). lia.
  - intros Hval. unfold Neighbor.max_nbor_loop.
    destruct (ScanFacts.max_nbor_from_spec numj ilist (Z.to_nat inum) 0 0)
      as (r & -> & _); [|discriminate].
    intros x Hx. apply Hval. lia.
  - intros Hle. unfold Neighbor.max_nbor_loop.
    replace (Z.to_nat inum) with 0%nat by lia. reflexivity.
Qed.

(** X6.  The order in which the particles are listed does not matter:
    scanning a whole index list and scanning any permutation of it give
    the same result, the same maximum or both undefined. *)
Theorem max_nbor_loop_permutation (numj ilist ilist' : list Z) :
  Permutation ilist ilist' ->
  Neighbor.max_nbor_loop (Z.of_nat (List.length ilist)) numj ilist
  = Neighbor.max_nbor_loop (Z.of_nat (List.length ilist')) numj ilist'.
Proof.
  intros HP. rewrite !ScanMore.max_nbor_loop_visits.
  unfold Scan.visits. now apply ScanMore.fold_visit_perm.
Qed.

Lemma max_nbor_loop_permutation_witness :
  Neighbor.max_nbor_loop 3 [3; 0; 7; 5] [2; 0; 3]
  = Neighbor.max_nbor_loop 3 [3; 0; 7; 5] [0; 3; 2].
Proof.
  apply (max_nbor_loop_permutation [3; 0; 7; 5] [2; 0; 3] [0; 3; 2]).
  apply perm_trans with (l' := [0; 2; 3]).
  - apply perm_swap.
  - apply perm_skip. apply perm_swap.
Defined.

(** X7.  Scanning two index lists one after the other: the scan of the
    concatenation is defined when both scans are, and its result is the
    larger of the two results. *)
Theorem max_nbor_loop_concat (numj js ks : list Z) :
  Neighbor.max_nbor_loop (Z.of_nat (List.length (js ++ ks))) numj (js ++ ks)
  = (a <- Neighbor.max_nbor_loop (Z.of_nat (List.length js)) numj js ;;
     b <- Neighbor.max_nbor_loop (Z.of_nat (List.length ks)) numj ks ;;
     Some (Z.max a b)).
Proof.
  rewrite !ScanMore.max_nbor_loop_visits.
  unfold Scan.visits at 1. rewrite fold_left_app.
  fold (Scan.visits numj js 0).
  destruct (Scan.visits numj js 0) as [a|] eqn:Ea; cbn [obind].
  - fold (Scan.visits numj ks a). apply ScanMore.visits_from.
    rewrite <- (ScanMore.max_nbor_from_visits numj js [] 0) in Ea.
    now apply ScanMore.max_nbor_from_ge in Ea.
  - induction ks as [|k ks IH]; [reflexivity | exact IH].
Qed.

(** X8.  A scan that is defined is defined on every shorter prefix, and
    scanning more particles never lowers the result. *)
Theorem max_nbor_loop_prefix (inum k : Z) (numj ilist : list Z) (mn : Z) :
  0 <= k <= inum ->
  Neighbor.max_nbor_loop inum numj ilist = Some mn ->
  exists mk,
    Neighbor.max_nbor_loop k numj ilist = Some mk /\ mk <= mn.
Proof.
  intros Hk. unfold Neighbor.max_nbor_loop.
  replace (Z.to_nat inum) with (Z.to_nat k + Z.to_nat (inum - k))%nat by lia.
  rewrite ScanMore.max_nbor_from_split.
  destruct (Neighbor.max_nbor_from (Z.to_nat k) 0 0 numj ilist) as [mk|];
    [|discriminate].
  cbn [obind]. intros E. exists mk. split; [reflexivity|].
  now apply ScanMore.max_nbor_from_ge in E.
Qed.

Lemma max_nbor_loop_prefix_witness :
  exists mk,
    Neighbor.max_nbor_loop 2 [3; 0; 7; 5] [1; 0; 2] = Some mk /\ mk <= 7.
Proof.
  apply (max_nbor_loop_prefix 3 2 [3; 0; 7; 5] [1; 0; 2] 7);
    [lia | reflexivity].
Defined.

(** ** Copying twice *)

(** X9.  [copy_unpacked] is idempotent: a defined copy followed by the
    same copy gives the same manager.  The copy keeps the size of
    [dev_packed] and leaves [dev_nbor] alone. *)
Theorem copy_unpacked_idempotent (s s' : Neighbor.t) (inum maxj : Z) :
  Neighbor.copy_unpacked s inum maxj = Some s' ->
  Neighbor.copy_unpacked s' inum maxj = Some s' /\
  List.length (Neighbor.dev_packed s') = List.length (Neighbor.dev_packed s) /\
  Neighbor.dev_nbor s' = Neighbor.dev_nbor s.
Proof.
  unfold Neighbor.copy_unpacked.
  destruct (Int.add maxj 2) as [rows|]; [|discriminate]. cbn [obind].
  destruct (Int.mul inum rows) as [numel|]; [|discriminate]. cbn [obind].
  unfold Neighbor.ucl_copy.
  destruct ((0 <=? numel)
            && (numel <=? Z.of_nat (List.length (Neighbor.dev_nbor s)))
            && (numel <=? Z.of_nat (List.length (Neighbor.dev_packed s))))
    eqn:G; [|discriminate].
  cbn [obind]. intros [= <-].
  cbn [Neighbor.dev_packed Neighbor.dev_nbor Neighbor.set_dev_packed].
  rewrite !andb_true_iff, !Z.leb_le in G. destruct G as [[G0 Gs] Gd].
  set (n := Z.to_nat numel).
  assert (Hf : List.length (firstn n (Neighbor.dev_nbor s)) = n)
    by (apply firstn_length_le; unfold n; lia).
  assert (Hl : List.length (firstn n (Neighbor.dev_nbor s)
                            ++ skipn n (Neighbor.dev_packed s))
               = List.length (Neighbor.dev_packed s)).
  { rewrite length_app, Hf, length_skipn. unfold n. lia. }
  rewrite Hl.
  assert (G : (0 <=? numel)
              && (numel <=? Z.of_nat (List.length (Neighbor.dev_nbor s)))
              && (numel <=? Z.of_nat (List.length (Neighbor.dev_packed s)))
              = true)
    by (rewrite !andb_true_iff, !Z.leb_le; lia).
  rewrite G. cbn [obind].
  split; [|split; reflexivity].
  assert (Hs : skipn n (firstn n (Neighbor.dev_nbor s)
                        ++ skipn n (Neighbor.dev_packed s))
               = skipn n (Neighbor.dev_packed s)).
  { rewrite skipn_app, Hf, Nat.sub_diag.
    rewrite <- Hf at 1. now rewrite skipn_all. }
  rewrite Hs. reflexivity.
Qed.

Lemma copy_unpacked_idempotent_witness :
  let s := Sample.manager 0 2 0 1 true (0, 0, 0)
             [10; 11; 1; 1; 11; 10; 0; 0] [5; 5; 5; 5; 5; 5; 5; 5] in
  exists s',
    Neighbor.copy_unpacked s 2 1 = Some s' /\
    Neighbor.copy_unpacked s' 2 1 = Some s' /\
    List.length (Neighbor.dev_packed s') = 8%nat.
Proof.
  intros s. eexists. split; [vm_compute; reflexivity|].
  destruct (copy_unpacked_idempotent s _ 2 1 eq_refl) as (H1 & H2 & _).
  split; [exact H1 | exact H2].
Defined.

(** ** The registry over its life *)

Module RegistryMore.
Import NeighborShared.

(** The registry a compilation in a mode other than 0 returns, member
    by member. *)
Lemma compile_device_state opencl vendor s mode :
  released s -> mode <> 0 -> opencl && (mode =? 1) = false ->
  compile_kernels opencl vendor s mode
  = Returned
      {| _compiled := true;
         _gpu_nbor := mode;
         nbor_program := nbor_program s;
         build_program := Some 1%nat;
         k_nbor := None;
         k_cell_id :=
           if mode =? 1 then Some (1%nat, "calc_cell_id"%string) else None;
         k_cell_counts :=
           if mode =? 1 then Some (1%nat, "kernel_calc_cell_counts"%string)
           else None;
         k_build_nbor := Some (1%nat, "calc_neigh_list_cell"%string);
         k_transpose := Some (1%nat, "transpose"%string);
         k_special := Some (1%nat, "kernel_special"%string);
         neigh_tex := Some (1%nat, "neigh_tex"%string);
         programs :=
           [(1%nat,
             {| loaded :=
                  if opencl then None
                  else Some (neighbor_gpu,
                             ("-cl-fast-relaxed-math -cl-mad-enable -D"
                              ++ vendor)%string) |})] |}.
Proof.
  intros R Hm Hx. apply RegistryFacts.released_handles in R.
  destruct R as (Hc & Hp & H1 & H2 & H3 & H4 & H5 & H6).
  unfold compile_kernels. rewrite Hc, Hp.
  apply Z.eqb_neq in Hm. rewrite Hm. cbn [new_program map list_max fold_right].
  cbn [Nat.max]. rewrite Hx, H1, H2, H3.
  destruct opencl; reflexivity.
Qed.

(** What a compilation on a released registry leaves: the flag set and
    one program alive. *)
Lemma compiled_one_program opencl vendor s0 mode s :
  released s0 ->
  compile_kernels opencl vendor s0 mode = Returned s ->
  _compiled s = true /\ List.length (programs s) = 1%nat.
Proof.
  intros R E. destruct (Z.eq_dec mode 0) as [->|Hne].
  - destruct (RegistryFacts.compile_host opencl vendor s0 R)
      as (s1 & E1 & Hc & _ & _ & Hp & _).
    rewrite E1 in E. injection E as <-. now rewrite Hp.
  - destruct (opencl && (mode =? 1)) eqn:Hx.
    + apply andb_true_iff in Hx. destruct Hx as [-> Hx].
      apply Z.eqb_eq in Hx. subst mode. destruct R as (Hc & _).
      rewrite (RegistryFacts.compile_exits vendor s0 Hc) in E. discriminate.
    + rewrite (compile_device_state opencl vendor s0 mode R Hne Hx) in E.
      injection E as <-. split; reflexivity.
Qed.

Lemma settled_facts opencl vendor s :
  Lifecycle.settled opencl vendor s ->
  (_compiled s = false -> released s) /\
  List.length (programs s) = (if _compiled s then 1 else 0)%nat.
Proof.
  intros [R|(s0 & mode & R & Hm & E)].
  - destruct R as (Hc & Hk & Hp). rewrite Hc, Hp.
    split; [intros _; now repeat split | reflexivity].
  - destruct (compiled_one_program opencl vendor s0 mode s R E) as [Hc Hl].
    rewrite Hc, Hl. split; [discriminate | reflexivity].
Qed.

(** One call on a settled registry: it never is undefined, it stops the
    process only for mode 1 in an OpenCL build, and it leaves the
    registry settled. *)
Lemma step_settled opencl vendor o s :
  Lifecycle.settled opencl vendor s -> Lifecycle.mode_ok o ->
  match Lifecycle.step opencl vendor o s with
  | Lifecycle.Running s' => Lifecycle.settled opencl vendor s'
  | Lifecycle.Stopped status _ =>
      status = 1 /\ opencl = true /\ o = Lifecycle.Compile 1
  | Lifecycle.Undefined => False
  end.
Proof.
  intros Hs Ho. destruct o as [mode|]; cbn [Lifecycle.step Lifecycle.mode_ok] in *.
  - destruct Hs as [R|(s0 & mode0 & R & Hm & E)].
    + destruct (compile_kernels opencl vendor s mode) as [s'|status cerr] eqn:E.
      * right. exists s, mode. auto.
      * assert (Hex : exists st ce,
                  compile_kernels opencl vendor s mode = Exited st ce)
          by (exists status, cerr; exact E).
        revert E. unfold compile_kernels.
        destruct R as (Hc & _). rewrite Hc.
        destruct (mode =? 0).
        -- destruct (new_program _). discriminate.
        -- destruct (new_program _).
           destruct (opencl && (mode =? 1)) eqn:Hx; [|discriminate].
           apply andb_true_iff in Hx. destruct Hx as [-> Hx].
           apply Z.eqb_eq in Hx. subst mode. intros [= <- _]. auto.
    + destruct (compiled_one_program opencl vendor s0 mode0 s R E) as [Hc _].
      rewrite (RegistryFacts.compile_kernels_compiled opencl vendor s mode Hc).
      right. exists s0, mode0. auto.
  - destruct Hs as [R|(s0 & mode0 & R & Hm & E)].
    + rewrite (RegistryFacts.clear_uncompiled s) by apply R. now left.
    + destruct (RegistryFacts.clear_after_compile opencl vendor s0 mode0 s R Hm E)
        as (s' & -> & R'). now left.
Qed.

End RegistryMore.

(** X10.  Starting from a released registry, no sequence of
    [compile_kernels] (with modes that are not negative) and [clear]
    calls runs into undefined behaviour or leaks a program: the registry
    it leaves has exactly one live program when it is compiled and is
    released when it is not.  The process is stopped only with status 1,
    only in an OpenCL build, and only if mode 1 was asked for. *)
Theorem registry_lifecycle (opencl : bool) (vendor : string)
  (ops : list Lifecycle.op) (s0 : NeighborShared.t) :
  NeighborShared.released s0 ->
  Forall Lifecycle.mode_ok ops ->
  match Lifecycle.exec opencl vendor ops s0 with
  | Lifecycle.Running s =>
      (NeighborShared._compiled s = false -> NeighborShared.released s) /\
      List.length (NeighborShared.programs s)
      = (if NeighborShared._compiled s then 1 else 0)%nat
  | Lifecycle.Stopped status _ =>
      status = 1 /\ opencl = true /\ In (Lifecycle.Compile 1) ops
  | Lifecycle.Undefined => False
  end.
Proof.
  intros R Hops.
  assert (Hs : Lifecycle.settled opencl vendor s0) by now left.
  clear R. revert s0 Hs.
  induction Hops as [|o ops Ho Hops IH]; intros s Hs; cbn [Lifecycle.exec].
  - exact (RegistryMore.settled_facts opencl vendor s Hs).
  - pose proof (RegistryMore.step_settled opencl vendor o s Hs Ho) as Hstep.
    destruct (Lifecycle.step opencl vendor o s) as [s'|status cerr|].
    + specialize (IH s' Hstep).
      destruct (Lifecycle.exec opencl vendor ops s') as [s''|status cerr|].
      * exact IH.
      * destruct IH as (H1 & H2 & H3). repeat split; auto. now right.
      * exact IH.
    + destruct Hstep as (H1 & H2 & ->). repeat split; auto. now left.
    + exact Hstep.
Qed.

Lemma registry_lifecycle_witness :
  let ops := [Lifecycle.Compile 2; Lifecycle.Compile 0; Lifecycle.Clear;
              Lifecycle.Clear; Lifecycle.Compile 0; Lifecycle.Compile 1] in
  match Lifecycle.exec false Sample.vendor ops NeighborShared.fresh with
  | Lifecycle.Running s =>
      (NeighborShared._compiled s = false -> NeighborShared.released s) /\
      List.length (NeighborShared.programs s)
      = (if NeighborShared._compiled s then 1 else 0)%nat
  | Lifecycle.Stopped status _ =>
      status = 1 /\ false = true /\ In (Lifecycle.Compile 1) ops
  | Lifecycle.Undefined => False
  end.
Proof.
  intros ops.
  apply (registry_lifecycle false Sample.vendor ops NeighborShared.fresh
           fresh_released).
  unfold ops, Lifecycle.mode_ok. repeat constructor; lia.
Defined.

(** X11.  [clear] does not release the texture: after a compilation in a
    mode above 0 and a [clear], [neigh_tex] is still bound to the program
    that [clear] deleted, and so is the member pointer [build_program]. *)
Theorem clear_keeps_texture (opencl : bool) (vendor : string)
  (s0 s : NeighborShared.t) (mode : Z) :
  NeighborShared.released s0 -> 0 < mode ->
  NeighborShared.compile_kernels opencl vendor s0 mode
  = NeighborShared.Returned s ->
  exists s' p,
    NeighborShared.clear s = Some s' /\
    NeighborShared.neigh_tex s' = Some (p, "neigh_tex"%string) /\
    NeighborShared.build_program s' = Some p /\
    NeighborShared.live (NeighborShared.programs s') p = false.
Proof.
  intros R Hm E.
  destruct (opencl && (mode =? 1)) eqn:Hx.
  - apply andb_true_iff in Hx. destruct Hx as [-> Hx].
    apply Z.eqb_eq in Hx. subst mode. destruct R as (Hc & _).
    rewrite (RegistryFacts.compile_exits vendor s0 Hc) in E. discriminate.
  - rewrite (RegistryMore.compile_device_state opencl vendor s0 mode R) in E
      by (lia || exact Hx).
    injection E as <-. unfold NeighborShared.clear.
    cbn [NeighborShared._compiled NeighborShared._gpu_nbor
         NeighborShared.programs NeighborShared.build_program].
    assert (G : (mode >? 0) = true) by (apply Z.gtb_gt; lia).
    rewrite G. cbn.
    eexists. exists 1%nat. split; [reflexivity|]. cbn. repeat split.
Qed.

Lemma clear_keeps_texture_witness :
  exists s s' p,
    NeighborShared.compile_kernels false Sample.vendor NeighborShared.fresh 2
    = NeighborShared.Returned s /\
    NeighborShared.clear s = Some s' /\
    NeighborShared.neigh_tex s' = Some (p, "neigh_tex"%string) /\
    NeighborShared.build_program s' = Some p /\
    NeighborShared.live (NeighborShared.programs s') p = false.
Proof.
  eexists.
  destruct (clear_keeps_texture false Sample.vendor NeighborShared.fresh _ 2
              fresh_released ltac:(lia) eq_refl) as (s' & p & H).
  exists s', p. split; [reflexivity | exact H].
Defined.

(** X12.  The two functions disagree on modes below 0:
    [compile_kernels] treats them as device modes ([gpu_nbor != 0]),
    [clear] as the host mode ([_gpu_nbor > 0] fails).  After a
    compilation in such a mode [clear] never releases the registry: it
    deletes through [nbor_program], which is undefined when that pointer
    was never assigned, and in any case the three build kernels stay
    bound. *)
Theorem clear_after_negative_mode (opencl : bool) (vendor : string)
  (s0 : NeighborShared.t) (mode : Z) :
  NeighborShared.released s0 -> mode < 0 ->
  exists s,
    NeighborShared.compile_kernels opencl vendor s0 mode
    = NeighborShared.Returned s /\
    (NeighborShared.nbor_program s0 = None -> NeighborShared.clear s = None) /\
    (forall s', NeighborShared.clear s = Some s' ->
                NeighborShared.kernels s' = NeighborShared.build_kernels /\
                ~ NeighborShared.released s').
Proof.
  intros R Hm.
  assert (Hone : (mode =? 1) = false) by (apply Z.eqb_neq; lia).
  eexists. split.
  - apply (RegistryMore.compile_device_state opencl vendor s0 mode R);
      [lia | rewrite Hone; apply andb_false_r].
  - unfold NeighborShared.clear.
    cbn [NeighborShared._compiled NeighborShared._gpu_nbor
         NeighborShared.programs NeighborShared.nbor_program].
    assert (G : (mode >? 0) = false)
      by (rewrite Z.gtb_ltb; apply Z.ltb_ge; lia).
    rewrite G, Hone. split.
    + intros ->. reflexivity.
    + intros s'. destruct (NeighborShared.delete _ _) as [h|];
        [|discriminate].
      cbn [obind]. intros [= <-]. split; [reflexivity|].
      intros (_ & Hk & _). discriminate.
Qed.

Lemma clear_after_negative_mode_witness :
  exists s,
    NeighborShared.compile_kernels true Sample.vendor NeighborShared.fresh (-1)
    = NeighborShared.Returned s /\
    NeighborShared.clear s = None.
Proof.
  destruct (clear_after_negative_mode true Sample.vendor NeighborShared.fresh
              (-1) fresh_released ltac:(lia)) as (s & E & Hnone & _).
  exists s. split; [exact E | exact (Hnone eq_refl)].
Defined.

(** ** The growth expression in exact arithmetic *)

(** X13.  The binary64 product in
    [static_cast<int>(static_cast<double>(n)*1.10)] never shows: for
    every [int] [n] the expression is eleven tenths of [n] rounded toward
    zero, computed exactly, and it is undefined exactly when that value
    is no [int].  In particular multiples of 10 grow to exactly [11*n/10]
    although 1.10 has no exact binary form. *)
Theorem grow_exact (n : Z) :
  Neighbor.is_int n ->
  grow n = Int.checked (Z.quot (11 * n) 10) /\
  (n mod 10 = 0 -> ~ grow_overflows n -> grow n = Some (11 * (n / 10))).
Proof.
  intros Hn.
  assert (E : grow n = Int.checked (Z.quot (11 * n) 10)).
  { destruct Hn as [Hlo Hhi]. unfold Int.min_int, Int.max_int in Hlo, Hhi.
    unfold grow, Double.to_int.
    destruct n as [|p|p].
    - reflexivity.
    - unfold Double.of_Z, binary_normalize.
      rewrite DoubleFacts.mul110_trunc by lia.
      cbn [obind Double.signed]. now rewrite Z.quot_div_nonneg by lia.
    - unfold Double.of_Z, binary_normalize.
      rewrite DoubleFacts.mul110_trunc by lia.
      cbn [obind Double.signed]. f_equal.
      change (Zneg p) with (- Zpos p).
      rewrite Z.mul_opp_r, Z.quot_opp_l, Z.quot_div_nonneg by lia.
      reflexivity. }
  split; [exact E|].
  intros Hmod Hfit.
  assert (Hten : n = 10 * (n / 10)).
  { pose proof (Z.div_mod n 10). lia. }
  assert (Hq : Z.quot (11 * n) 10 = 11 * (n / 10)).
  { rewrite Hten at 1.
    replace (11 * (10 * (n / 10))) with (11 * (n / 10) * 10) by ring.
    apply Z.quot_mul. lia. }
  rewrite E, Hq. apply IntFacts.checked_in.
  unfold grow_overflows in Hfit. unfold Int.min_int, Int.max_int.
  change (- 2 ^ 31) with (-2147483648). change (2 ^ 31 - 1) with 2147483647.
  lia.
Qed.

Lemma grow_exact_witness :
  grow 1000 = Int.checked (Z.quot (11 * 1000) 10) /\
  grow 1000 = Some (11 * (1000 / 10)) /\
  grow (-25) = Int.checked (Z.quot (11 * -25) 10).
Proof.
  assert (I1 : Neighbor.is_int 1000)
    by (unfold Neighbor.is_int, Int.min_int, Int.max_int; lia).
  assert (I2 : Neighbor.is_int (-25))
    by (unfold Neighbor.is_int, Int.min_int, Int.max_int; lia).
  split; [exact (proj1 (grow_exact 1000 I1))|]. split.
  - apply (proj2 (grow_exact 1000 I1)); [reflexivity|].
    unfold grow_overflows. lia.
  - exact (proj1 (grow_exact (-25) I2)).
Defined.

(** ** The handles a compilation takes *)

(** X14.  On a released registry, a call of [compile_kernels] that
    returns leaves handles bound to: the unpack kernel for mode 0; the
    two binning kernels and the three build kernels for mode 1; the three
    build kernels only for every other mode.  The handles to the cell-id
    and the cell-count kernel are taken for mode 1 alone, in either
    build, whatever was compiled into the program. *)
Theorem compile_kernels_handles (opencl : bool) (vendor : string)
  (s s' : NeighborShared.t) (mode : Z) :
  NeighborShared.released s ->
  NeighborShared.compile_kernels opencl vendor s mode
  = NeighborShared.Returned s' ->
  NeighborShared.kernels s'
  = (if mode =? 0 then NeighborShared.unpack_kernels
     else if mode =? 1
          then NeighborShared.binning_kernels ++ NeighborShared.build_kernels
          else NeighborShared.build_kernels) /\
  (NeighborShared.k_cell_id s' <> None <-> mode = 1) /\
  (NeighborShared.k_cell_counts s' <> None <-> mode = 1).
Proof.
  intros R E. destruct (Z.eqb_spec mode 0) as [->|Hm].
  - destruct (RegistryFacts.compile_host opencl vendor s R)
      as (s1 & E1 & _ & _ & _ & _ & H1 & H2 & H3 & H4 & H5 & H6).
    rewrite E1 in E. injection E as <-.
    unfold NeighborShared.kernels. rewrite H1, H2, H3, H4, H5, H6.
    split; [reflexivity|]. split; split; try contradiction; lia.
  - destruct (opencl && (mode =? 1)) eqn:Hx.
    + apply andb_true_iff in Hx. destruct Hx as [-> Hx].
      apply Z.eqb_eq in Hx. subst mode. destruct R as (Hc & _).
      rewrite (RegistryFacts.compile_exits vendor s Hc) in E. discriminate.
    + destruct (RegistryFacts.compile_device opencl vendor s mode R Hm Hx)
        as (s1 & E1 & _ & _ & _ & _ & H1 & H2 & H3 & H4 & H5 & H6).
      rewrite E1 in E. injection E as <-.
      unfold NeighborShared.kernels. rewrite H1, H2, H3, H4, H5, H6.
      destruct (Z.eqb_spec mode 1) as [->|Hm1].
      * split; [reflexivity|]. split; split; auto; discriminate.
      * split; [reflexivity|]. split; split; try contradiction; lia.
Qed.

Lemma compile_kernels_handles_witness :
  exists s',
    NeighborShared.compile_kernels false Sample.vendor NeighborShared.fresh 2
    = NeighborShared.Returned s' /\
    NeighborShared.kernels s' = NeighborShared.build_kernels /\
    (NeighborShared.k_cell_id s' <> None <-> 2 = 1) /\
    (NeighborShared.k_cell_counts s' <> None <-> 2 = 1).
Proof.
  eexists. split; [reflexivity|].
  apply (compile_kernels_handles false Sample.vendor NeighborShared.fresh _ 2
           fresh_released eq_refl).
Defined.
